(** * vcard_convert: the CSV-to-vCard converter of [Convert2.py]

    A shallow embedding of the validation, normalisation and rendering
    pipeline of [ContactConverter] and of its orchestration, followed by the
    properties the natural-language specification states about it.

    Conventions of the embedding.
    - A Python [str] is a list of characters; a character is a code point
      below 256 (the Latin-1 range), so that the classes used by the program
      ([\d], [str.isspace], [str.lower]) are the Python ones restricted to
      that range.
    - A call that may raise returns a [res]: [Ok v] or [Raise e].
    - Code that logs, prints, reads the clock or touches files runs in the
      monad [M] over a [world]: the regular files, the clock and the stream
      of emitted records. *)

From Stdlib Require Import String Ascii List NArith Arith Bool Lia Sorted.
From stdpp Require Import base option list countable strings gmap.
Import ListNotations.

Set Default Proof Using "Type".

(** ** Python strings *)

Definition str := list ascii.

Declare Scope str_scope.
Delimit Scope str_scope with str.
Bind Scope str_scope with str.
#[warnings="-via-type-mismatch,-via-type-remapping"]
String Notation str string_of_list_byte list_byte_of_string
  (via string mapping [[nil] => EmptyString, [cons] => String]) : str_scope.
Local Open Scope str_scope.

Module Py.

Definition code (c : ascii) : N := N_of_ascii c.

Definition in_range (lo hi : N) (c : ascii) : bool :=
  (lo <=? code c)%N && (code c <=? hi)%N.

(** [\d] on code points below 256: the ten ASCII digits. *)
Definition is_digit (c : ascii) : bool := in_range 48 57 c.

Definition is_upper_ascii (c : ascii) : bool := in_range 65 90 c.
Definition is_lower_ascii (c : ascii) : bool := in_range 97 122 c.
Definition is_letter (c : ascii) : bool := is_lower_ascii c || is_upper_ascii c.

(** [str.isspace] on code points below 256. *)
Definition is_space (c : ascii) : bool :=
  in_range 9 13 c || in_range 28 32 c
  || (code c =? 133)%N || (code c =? 160)%N.

(** [str.lower] on one code point below 256. *)
Definition lower_char (c : ascii) : ascii :=
  if is_upper_ascii c || (in_range 192 222 c && negb (code c =? 215)%N)
  then ascii_of_N (code c + 32) else c.

Definition lower (s : str) : str := map lower_char s.

Fixpoint lstrip (s : str) : str :=
  match s with
  | c :: s' => if is_space c then lstrip s' else s
  | [] => []
  end.

Definition rstrip (s : str) : str := rev (lstrip (rev s)).

(** [s.strip()] *)
Definition strip (s : str) : str := rstrip (lstrip s).

(** [s.split()]: the maximal runs of non-whitespace characters.  [cur] is
    the run being read, in reverse. *)
Fixpoint split_from (cur : str) (s : str) : list str :=
  match s with
  | [] => match cur with [] => [] | _ => [rev cur] end
  | c :: s' =>
      if is_space c
      then match cur with
           | [] => split_from [] s'
           | _ => rev cur :: split_from [] s'
           end
      else split_from (c :: cur) s'
  end.

Definition split (s : str) : list str := split_from [] s.

(** [sep.join(parts)] *)
Fixpoint join (sep : str) (parts : list str) : str :=
  match parts with
  | [] => []
  | [p] => p
  | p :: ps => p ++ sep ++ join sep ps
  end.

(** [s.startswith(p)] *)
Fixpoint startswith (p s : str) : bool :=
  match p, s with
  | [], _ => true
  | a :: p', b :: s' => if Ascii.eqb a b then startswith p' s' else false
  | _ :: _, [] => false
  end.

(** [s[i:j]] for [0 <= i <= j]. *)
Definition slice (s : str) (i j : nat) : str := take (j - i) (drop i s).

(** [range(0, stop, step)] for a positive [step]. *)
Definition range0 (stop step : nat) : list nat :=
  map (fun k => k * step) (seq 0 ((stop + step - 1) / step)).

Definition str_eqb (a b : str) : bool := bool_decide (a = b).

(** Truth value of an [Optional[str]]: [None] and [""] are false. *)
Definition truthy (o : option str) : bool :=
  match o with
  | Some (_ :: _) => true
  | _ => false
  end.

Definition nl : str := [ascii_of_N 10].

End Py.

(** ** Regular expressions of [re], as far as the program uses them *)

Module Re.

Inductive regex : Type :=
| Void
| Eps
| Class (p : ascii -> bool)
| Seq (r1 r2 : regex)
| Alt (r1 r2 : regex)
| Star (r : regex).

(** [r+] and [r{2,}] *)
Definition Plus (r : regex) : regex := Seq r (Star r).
Definition AtLeast2 (r : regex) : regex := Seq r (Seq r (Star r)).

(** [$] outside MULTILINE mode, as the last item of a pattern: the end of
    the string, or just before a newline that ends the string. *)
Definition EndAnchor : regex :=
  Alt Eps (Class (fun c => bool_decide (c = ascii_of_N 10))).

Fixpoint nullable (r : regex) : bool :=
  match r with
  | Void => false
  | Eps => true
  | Class _ => false
  | Seq r1 r2 => nullable r1 && nullable r2
  | Alt r1 r2 => nullable r1 || nullable r2
  | Star _ => true
  end.

Fixpoint deriv (c : ascii) (r : regex) : regex :=
  match r with
  | Void => Void
  | Eps => Void
  | Class p => if p c then Eps else Void
  | Seq r1 r2 =>
      if nullable r1
      then Alt (Seq (deriv c r1) r2) (deriv c r2)
      else Seq (deriv c r1) r2
  | Alt r1 r2 => Alt (deriv c r1) (deriv c r2)
  | Star r1 => Seq (deriv c r1) (Star r1)
  end.

(** Whether the whole of [s] is matched by [r]. *)
Fixpoint fullmatch (r : regex) (s : str) : bool :=
  match s with
  | [] => nullable r
  | c :: s' => fullmatch (deriv c r) s'
  end.

(** The language of a regular expression. *)
Inductive lang : regex -> str -> Prop :=
| lang_eps : lang Eps []
| lang_class p c : p c = true -> lang (Class p) [c]
| lang_seq r1 r2 s1 s2 : lang r1 s1 -> lang r2 s2 -> lang (Seq r1 r2) (s1 ++ s2)
| lang_alt_l r1 r2 s : lang r1 s -> lang (Alt r1 r2) s
| lang_alt_r r1 r2 s : lang r2 s -> lang (Alt r1 r2) s
| lang_star_nil r : lang (Star r) []
| lang_star_app r s1 s2 : lang r s1 -> lang (Star r) s2 -> lang (Star r) (s1 ++ s2).

End Re.

(** ** The program: [Convert2.py] *)

Module Convert2.
Import Py.

(** *** Outcomes and exceptions *)

Inductive exn : Type :=
| ValueError (msg : str)
| AttributeError (msg : str)
| FileNotFoundError (msg : str)
| LibraryError (msg : str).  (* raised by [open], [csv], the codec *)

Definition str_of_exn (e : exn) : str :=
  match e with
  | ValueError m | AttributeError m | FileNotFoundError m | LibraryError m => m
  end.

Inductive res (A : Type) : Type :=
| Ok (a : A)
| Raise (e : exn).
Arguments Ok {A} a.
Arguments Raise {A} e.

(** *** Data model *)

Inductive VCardVersion : Type := V2_1 | V3_0.

Definition version_eqb (a b : VCardVersion) : bool :=
  match a, b with
  | V2_1, V2_1 | V3_0, V3_0 => true
  | _, _ => false
  end.

Record Contact : Type := mkContact {
  name : str;
  phone : str;
  email : option str;
  organization : option str;
  title : option str;
  address : option str;
  notes : option str;
  groups : option (list str)
}.

(** A value of a [csv.DictReader] row: a field, [None] for a field a short
    line lacks, or the list of the surplus fields of a long line. *)
Inductive cell : Type :=
| CStr (s : str)
| CNone
| CList (l : list str).

(** A row: its items in insertion order.  The key is [None] for the
    surplus fields of a long line. *)
Definition row : Type := list (option str * cell).

(** An entry of [invalid_contacts]. *)
Record rejected : Type := mkRejected {
  row_number : nat;
  data : row
}.

(** A [pathlib.Path], by its parent and the two parts of its final
    component ([name = stem + suffix]). *)
Record path : Type := mkPath {
  parent : str;
  stem : str;
  suffix : str
}.

Definition path_name (p : path) : str := stem p ++ suffix p.
Definition path_str (p : path) : str := parent p ++ "/" ++ path_name p.

(** The attributes set by [ContactConverter.__init__]. *)
Record converter : Type := mkConverter {
  country_code : str;
  vcard_version : VCardVersion;
  name_suffix : str;
  output_dir : str;
  backup : bool;
  preview_limit : nat
}.

Definition default_converter : converter :=
  {| country_code := "+91"; vcard_version := V3_0; name_suffix := "";
     output_dir := "output"; backup := true; preview_limit := 5 |}.

(** *** Emitted records

    Every logging or printing statement of the source emits one record
    that carries the values interpolated in its text. *)

Inductive level : Type := INFO | WARNING | ERROR.

Inductive message : Type :=
| MsgInvalidEmail (email : str)
| MsgErrorValidating (e : exn) (r : row)
| MsgHeaders (fieldnames : option (list str))
| MsgSummary (valid invalid : nat)
| MsgErrorReading (e : exn)
| MsgBackupCreated (p : path)
| MsgReportExported (p : path)
| MsgWorkingDirectory
| MsgAvailableCsvFiles
| MsgAttempting (input_path : str)
| MsgPreview (csv_file : str)
| MsgSuccess (output_file : path) (total : nat)
| MsgConversionError (e : exn).

Inductive event : Type :=
| Logged (lv : level) (m : message)
| Printed (m : message).

(** *** The world and the monad *)

Record world : Type := mkWorld {
  fs : gmap str str;      (* the regular files: path to contents *)
  clock : nat;            (* how many times the clock was read *)
  emitted : list event    (* log and console records, oldest first *)
}.

Definition M (A : Type) : Type := world -> res A * world.

Definition ret {A} (a : A) : M A := fun w => (Ok a, w).
Definition raise {A} (e : exn) : M A := fun w => (Raise e, w).
Definition bind {A B} (m : M A) (k : A -> M B) : M B :=
  fun w => match m w with
           | (Ok a, w') => k a w'
           | (Raise e, w') => (Raise e, w')
           end.
Definition lift {A} (r : res A) : M A := fun w => (r, w).

(** [try: m  except Exception as e: h e] *)
Definition try_except {A} (m : M A) (h : exn -> M A) : M A :=
  fun w => match m w with
           | (Ok a, w') => (Ok a, w')
           | (Raise e, w') => h e w'
           end.

Definition emit (ev : event) : M unit :=
  fun w => (Ok tt, {| fs := fs w; clock := clock w; emitted := emitted w ++ [ev] |}).

Definition get_fs : M (gmap str str) := fun w => (Ok (fs w), w).

Definition put_file (p : str) (content : str) : M unit :=
  fun w => (Ok tt, {| fs := <[p := content]> (fs w); clock := clock w;
                      emitted := emitted w |}).

Declare Scope py_scope.
Delimit Scope py_scope with py.
Notation "x <- m ;; k" := (bind m (fun x => k))
  (at level 100, m at next level, right associativity) : py_scope.
Notation "m ;; k" := (bind m (fun _ => k))
  (at level 100, right associativity) : py_scope.
Local Open Scope py_scope.

(** What the program takes from its libraries and its environment. *)
Record csv_stream : Type := mkStream {
  fieldnames : option (list str);
  rows : list row;          (* the rows the reader yields, in order *)
  failure : option exn      (* the exception that ends the iteration, if any *)
}.

Record libs : Type := mkLibs {
  (* [datetime.now().strftime('%Y%m%d_%H%M%S')] at the k-th reading *)
  strftime_now : nat -> str;
  (* [csv.DictReader] over the text of a file decoded as utf-8-sig *)
  csv_DictReader : str -> csv_stream;
  (* [json.dump(invalid_contacts, f, indent=2)] *)
  json_dump : list rejected -> str;
  (* [Path(csv_file).resolve()] *)
  resolve : str -> str;
  (* what [preview_csv] prints or logs for a file; it lets no exception out *)
  preview_records : str -> list event
}.

Definition now (L : libs) : M str :=
  fun w => (Ok (strftime_now L (clock w)),
            {| fs := fs w; clock := S (clock w); emitted := emitted w |}).

(** *** Field Normalizer *)

(** [clean_phone_number], lines 118-131. *)
Definition clean_phone_number (self : converter) (phone : str) : res str :=
  let cleaned := List.filter is_digit phone in
  if length cleaned <? 10
  then Raise (ValueError ("Phone number too short: " ++ phone))
  else
    let cleaned :=
      if length cleaned =? 10
      then country_code self ++ " " ++ cleaned
      else if (10 <? length cleaned) && negb (startswith "+" cleaned)
           then "+" ++ cleaned
           else cleaned in
    let cleaned :=
      join " " (map (fun i => slice cleaned i (i + 4))
                    (range0 (length cleaned) 4)) in
    Ok (strip cleaned).

(** The pattern of [validate_email]:
    [^[a-zA-Z0-9._%+-]+@[a-zA-Z0-9.-]+\.[a-zA-Z]{2,}$].  [re.match]
    anchors the match at the start of the string. *)
Definition one_of (cs : str) (c : ascii) : bool := bool_decide (c ∈ cs).
Definition local_char (c : ascii) : bool :=
  is_letter c || is_digit c || one_of "._%+-" c.
Definition domain_char (c : ascii) : bool :=
  is_letter c || is_digit c || one_of ".-" c.

Definition email_regex : Re.regex :=
  Re.Seq (Re.Plus (Re.Class local_char))
 (Re.Seq (Re.Class (one_of "@"))
 (Re.Seq (Re.Plus (Re.Class domain_char))
 (Re.Seq (Re.Class (one_of "."))
 (Re.Seq (Re.AtLeast2 (Re.Class is_letter))
         Re.EndAnchor)))).

(** [validate_email], lines 144-152. *)
Definition validate_email (email : option str) : M (option str) :=
  match email with
  | None | Some [] => ret None
  | Some email =>
      let email := strip email in
      if Re.fullmatch email_regex email
      then ret (Some email)
      else emit (Logged WARNING (MsgInvalidEmail email)) ;; ret None
  end.

(** *** Name Parser *)

(** [parse_name], lines 133-142. *)
Definition parse_name (name : str) : str * str * str :=
  let parts := split (strip name) in
  match parts with
  | [p] => (p, "", p)
  | firstname :: (_ :: _) as rest => (firstname, join " " rest, strip name)
  | [] => ("", "", "")
  end.

(** *** Card Renderer *)

(** The two templates of [setup_vcard_templates], lines 56-71, applied to
    their arguments by [str.format]. *)
Definition template_V2_1 (name suffix phone email org title adr note : str) : str :=
  "BEGIN:VCARD" ++ nl ++
  "VERSION:2.1" ++ nl ++
  "N:;" ++ name ++ suffix ++ ";;;" ++ nl ++
  "FN:" ++ name ++ suffix ++ nl ++
  "TEL;CELL;PREF:" ++ phone ++ nl ++
  email ++ org ++ title ++ adr ++ note ++ "END:VCARD".

Definition template_V3_0
  (firstname lastname fullname suffix phone email org title adr note : str) : str :=
  "BEGIN:VCARD" ++ nl ++
  "VERSION:3.0" ++ nl ++
  "N:" ++ lastname ++ ";" ++ firstname ++ ";;;" ++ nl ++
  "FN:" ++ fullname ++ suffix ++ nl ++
  "TEL;TYPE=CELL:" ++ phone ++ nl ++
  email ++ org ++ title ++ adr ++ note ++ "END:VCARD".

(** The value of an attribute that passed its truth test. *)
Definition text (o : option str) : str := default "" o.

(** [create_vcard_entry], lines 154-196. *)
Definition create_vcard_entry (self : converter) (contact : Contact) : str :=
  let '(firstname, lastname, fullname) := parse_name (name contact) in
  let email_field :=
    if truthy (email contact)
    then "EMAIL" ++ (if version_eqb (vcard_version self) V3_0
                     then ";TYPE=INTERNET" else "")
         ++ ":" ++ text (email contact) ++ nl
    else "" in
  let org_field :=
    if truthy (organization contact)
    then "ORG:" ++ text (organization contact) ++ nl else "" in
  let title_field :=
    if truthy (title contact)
    then "TITLE:" ++ text (title contact) ++ nl else "" in
  let adr_field :=
    if truthy (address contact)
    then "ADR" ++ (if version_eqb (vcard_version self) V3_0
                   then ";TYPE=HOME" else "")
         ++ ":;;" ++ text (address contact) ++ ";;;;" ++ nl
    else "" in
  let note_field :=
    if truthy (notes contact)
    then "NOTE:" ++ text (notes contact) ++ nl else "" in
  if version_eqb (vcard_version self) V2_1
  then template_V2_1 (name contact) (name_suffix self) (phone contact)
         email_field org_field title_field adr_field note_field
  else template_V3_0 firstname lastname fullname (name_suffix self)
         (phone contact)
         email_field org_field title_field adr_field note_field.

(** *** Record Validator *)

(** [next((row[k].strip() for k in row if k.strip().lower() in names), None)]:
    the keys are visited in order; the test of a key raises when the key is
    [None], and the value of the first matching key is stripped, which
    raises when it is not a [str]. *)
Fixpoint next_field (names : list str) (r : row) : res (option str) :=
  match r with
  | [] => Ok None
  | (k, v) :: r' =>
      match k with
      | None => Raise (AttributeError "'NoneType' object has no attribute 'strip'")
      | Some k =>
          if bool_decide (lower (strip k) ∈ names)
          then match v with
               | CStr s => Ok (Some (strip s))
               | CNone =>
                   Raise (AttributeError "'NoneType' object has no attribute 'strip'")
               | CList _ =>
                   Raise (AttributeError "'list' object has no attribute 'strip'")
               end
          else next_field names r'
      end
  end.

(** The body of the [try] of [validate_contact], lines 215-259. *)
Definition validate_contact_body (self : converter) (r : row) : M Contact :=
  name <- lift (next_field ["name"] r) ;;
  phone <- lift (next_field ["phone"] r) ;;
  match name, phone with
  | Some ((_ :: _) as name), Some ((_ :: _) as phone) =>
      cleaned_phone <- lift (clean_phone_number self phone) ;;
      email <- lift (next_field ["email"] r) ;;
      email <- validate_email email ;;
      organization <- lift (next_field ["organization"; "org"] r) ;;
      title <- lift (next_field ["title"] r) ;;
      address <- lift (next_field ["address"] r) ;;
      notes <- lift (next_field ["notes"; "note"] r) ;;
      ret {| name := name; phone := cleaned_phone; email := email;
             organization := organization; title := title;
             address := address; notes := notes; groups := None |}
  | _, _ =>
      (* [if not name or not phone] *)
      raise (ValueError "Missing required fields: name or phone")
  end.

(** [validate_contact], lines 212-263. *)
Definition validate_contact (self : converter) (r : row) : M (option Contact) :=
  try_except
    (contact <- validate_contact_body self r ;; ret (Some contact))
    (fun e => emit (Logged ERROR (MsgErrorValidating e r)) ;; ret None).

(** *** Batch Reader *)

(** The [for] loop of [read_contacts], lines 275-285. *)
Fixpoint read_rows (self : converter) (row_num : nat) (rs : list row)
    (valid_contacts : list Contact) (invalid_contacts : list rejected)
    : M (list Contact * list rejected) :=
  match rs with
  | [] => ret (valid_contacts, invalid_contacts)
  | r :: rs' =>
      contact <- validate_contact self r ;;
      match contact with
      | Some contact =>
          read_rows self (S row_num) rs' (valid_contacts ++ [contact])
            invalid_contacts
      | None =>
          read_rows self (S row_num) rs' valid_contacts
            (invalid_contacts ++ [{| row_number := row_num; data := r |}])
      end
  end.

(** [open(csv_file, mode="r", encoding="utf-8-sig")] *)
Definition open_read (csv_file : str) : M str :=
  files <- get_fs ;;
  match files !! csv_file with
  | Some content => ret content
  | None => raise (FileNotFoundError
                     ("[Errno 2] No such file or directory: '" ++ csv_file ++ "'"))
  end.

(** [read_contacts], lines 265-301. *)
Definition read_contacts (L : libs) (self : converter) (csv_file : str)
    : M (list Contact * list rejected) :=
  try_except
    (content <- open_read csv_file ;;
     let reader := csv_DictReader L content in
     emit (Logged INFO (MsgHeaders (fieldnames reader))) ;;
     result <- read_rows self 2 (rows reader) [] [] ;;
     match failure reader with
     | Some e => raise e
     | None =>
         let '(valid_contacts, invalid_contacts) := result in
         emit (Printed (MsgSummary (length valid_contacts) (length invalid_contacts))) ;;
         emit (Logged INFO (MsgSummary (length valid_contacts) (length invalid_contacts))) ;;
         ret (valid_contacts, invalid_contacts)
     end)
    (fun e => emit (Logged ERROR (MsgErrorReading e)) ;; raise e).

(** *** Conversion Orchestrator *)

(** The path [backup_file] copies to, line 111-114. *)
Definition backup_path_of (file_path : path) (stamp : str) : path :=
  {| parent := parent file_path;
     stem := stem file_path ++ "_backup_" ++ stamp;
     suffix := suffix file_path |}.

(** [backup_file], lines 108-116. *)
Definition backup_file (L : libs) (self : converter) (file_path : path) : M unit :=
  files <- get_fs ;;
  match files !! path_str file_path with
  | Some content =>
      if backup self
      then
        stamp <- now L ;;
        let backup_path := backup_path_of file_path stamp in
        put_file (path_str backup_path) content ;;
        emit (Logged INFO (MsgBackupCreated backup_path))
      else ret tt
  | None => ret tt
  end.

(** [export_error_report], lines 303-314. *)
Definition export_error_report (L : libs) (self : converter)
    (invalid_contacts : list rejected) : M unit :=
  match invalid_contacts with
  | [] => ret tt
  | _ :: _ =>
      stamp <- now L ;;
      let report_path :=
        {| parent := output_dir self; stem := "error_report_" ++ stamp;
           suffix := ".json" |} in
      put_file (path_str report_path) (json_dump L invalid_contacts) ;;
      emit (Logged INFO (MsgReportExported report_path))
  end.

(** [preview_csv], lines 85-106: console output only. *)
Definition preview_csv (L : libs) (csv_file : str) : M unit :=
  fun w => (Ok tt, {| fs := fs w; clock := clock w;
                      emitted := emitted w ++ preview_records L csv_file |}).

(** The first part of the [try] of [convert_to_vcard], lines 320-363: the
    input path is resolved and checked, the file previewed, the output path
    chosen and its file backed up. *)
Definition locate_files (L : libs) (self : converter) (csv_file : str)
    (output_file : option path) : M (str * path) :=
  let input_path := resolve L csv_file in
  emit (Printed MsgWorkingDirectory) ;;
  emit (Printed MsgWorkingDirectory) ;;
  emit (Printed MsgAvailableCsvFiles) ;;
  emit (Printed MsgAvailableCsvFiles) ;;
  emit (Printed (MsgAttempting input_path)) ;;
  files <- get_fs ;;
  match files !! input_path with
  | None =>
      raise (FileNotFoundError
               ("Input file '" ++ csv_file ++ "' not found." ++ nl ++
                "Full path attempted: " ++ input_path ++ nl ++
                "Please check the filename and ensure it's in the correct directory."))
  | Some _ =>
      preview_csv L input_path ;;
      output_file <-
        match output_file with
        | None =>
            timestamp <- now L ;;
            ret {| parent := output_dir self;
                   stem := "contacts_" ++ timestamp; suffix := ".vcf" |}
        | Some p => ret p
        end ;;
      backup_file L self output_file ;;
      ret (input_path, output_file)
  end.

(** [convert_to_vcard], lines 316-404.  [analyze_contacts] and the creation
    of the output directory change nothing the world records. *)
Definition convert_to_vcard (L : libs) (self : converter) (csv_file : str)
    (output_file : option path) : M unit :=
  try_except
    (located <- locate_files L self csv_file output_file ;;
     let '(input_path, output_file) := located in
     result <- read_contacts L self input_path ;;
     let '(contacts, invalid_contacts) := result in
     match contacts with
     | [] => raise (ValueError "No valid contacts found in the CSV file")
     | _ :: _ =>
         let vcards_content :=
           join nl (map (create_vcard_entry self) contacts) in
         put_file (path_str output_file) vcards_content ;;
         export_error_report L self invalid_contacts ;;
         emit (Printed (MsgSuccess output_file (length contacts))) ;;
         emit (Logged INFO (MsgSuccess output_file (length contacts)))
     end)
    (fun e =>
       emit (Printed (MsgConversionError e)) ;;
       emit (Logged ERROR (MsgConversionError e)) ;;
       raise e).

End Convert2.

(** ** The notions the specification uses *)

Module Spec.
Import Py Convert2.

(** The digit characters of a string, in order. *)
Definition digits (s : str) : str := List.filter is_digit s.

Definition all_digits (s : str) : bool := forallb is_digit s.

(** A string regrouped into chunks separated by single spaces; [k] is the
    number of characters the current chunk still takes. *)
Fixpoint regroup (k : nat) (s : str) : str :=
  match s with
  | [] => []
  | c :: s' =>
      match k with
      | 0 => " " ++ c :: regroup 3 s'
      | S k' => c :: regroup k' s'
      end
  end.

(** Regrouped into 4-character chunks. *)
Definition regroup4 (s : str) : str := regroup 4 s.

(** The chunks [clean_phone_number] cuts, line 130. *)
Definition chunks4 (s : str) : list str :=
  map (fun i => slice s i (i + 4)) (range0 (length s) 4).

Definition all_space (s : str) : bool := forallb is_space s.
Definition no_space (s : str) : bool := forallb (fun c => negb (is_space c)) s.

(** [tokens s ts]: [ts] are the maximal runs of non-whitespace characters of
    [s], in order - what splitting on whitespace runs yields. *)
Inductive tokens : str -> list str -> Prop :=
| tokens_none ws :
    all_space ws = true -> tokens ws []
| tokens_run ws t s ts :
    all_space ws = true ->
    t <> [] -> no_space t = true ->
    (s = [] \/ exists c s', s = c :: s' /\ is_space c = true) ->
    tokens s ts ->
    tokens (ws ++ t ++ s) (t :: ts).

(** The pattern [local-part@domain.tld]. *)
Definition email_pattern (s : str) : Prop :=
  exists local domain tld : str,
    s = local ++ "@" ++ domain ++ "." ++ tld /\
    local <> [] /\ forallb local_char local = true /\
    domain <> [] /\ forallb domain_char domain = true /\
    2 <= length tld /\ forallb is_letter tld = true.

Definition is_nl (c : ascii) : bool := bool_decide (c = ascii_of_N 10).

(** The lines of a text: the pieces between its line breaks. *)
Fixpoint lines_of (s : str) : list str :=
  match s with
  | [] => [[]]
  | c :: s' =>
      if is_nl c then [] :: lines_of s'
      else match lines_of s' with
           | l :: ls => (c :: l) :: ls
           | [] => [[c]]
           end
  end.

(** A text without a line break. *)
Definition single_line (s : str) : bool := forallb (fun c => negb (is_nl c)) s.

Definition single_line_opt (o : option str) : bool := single_line (text o).

(** Each line followed by a line break. *)
Definition unlines (ls : list str) : str := concat (map (fun l => l ++ nl) ls).

Definition v3 (self : converter) : bool := version_eqb (vcard_version self) V3_0.

(** The optional lines of a card, in the order of the specification; an
    attribute contributes its line only when it is non-empty. *)
Definition optional_lines (self : converter) (c : Contact) : list str :=
  (if truthy (email c)
   then [(if v3 self then "EMAIL;TYPE=INTERNET:" else "EMAIL:") ++ text (email c)]
   else []) ++
  (if truthy (organization c) then ["ORG:" ++ text (organization c)] else []) ++
  (if truthy (title c) then ["TITLE:" ++ text (title c)] else []) ++
  (if truthy (address c)
   then [(if v3 self then "ADR;TYPE=HOME:;;" else "ADR:;;") ++ text (address c) ++ ";;;;"]
   else []) ++
  (if truthy (notes c) then ["NOTE:" ++ text (notes c)] else []).

(** The phone line of a card. *)
Definition phone_line (self : converter) (c : Contact) : str :=
  (if v3 self then "TEL;TYPE=CELL:" else "TEL;CELL;PREF:") ++ phone c.

(** The text of a card before its phone line. *)
Definition card_head (self : converter) (c : Contact) : str :=
  if v3 self
  then let '(firstname, lastname, fullname) := parse_name (name c) in
       "BEGIN:VCARD" ++ nl ++ "VERSION:3.0" ++ nl ++
       "N:" ++ lastname ++ ";" ++ firstname ++ ";;;" ++ nl ++
       "FN:" ++ fullname ++ name_suffix self
  else "BEGIN:VCARD" ++ nl ++ "VERSION:2.1" ++ nl ++
       "N:;" ++ name c ++ name_suffix self ++ ";;;" ++ nl ++
       "FN:" ++ name c ++ name_suffix self.

(** A row as the specification describes it: column names and values are
    strings. *)
Definition well_typed (r : row) : bool :=
  forallb (fun kv => match kv with (Some _, CStr _) => true | _ => false end) r.

(** The value of a logical field of a well-typed row: the stripped value of
    the first column whose header matches, if any. *)
Definition field (names : list str) (r : row) : option str :=
  match next_field names r with
  | Ok v => v
  | Raise _ => None
  end.

Definition initial_world : world := {| fs := ∅; clock := 0; emitted := [] |}.

(** A world after some more records were emitted. *)
Definition add_events (w : world) (evs : list event) : world :=
  {| fs := fs w; clock := clock w; emitted := emitted w ++ evs |}.

(** A computation whose only effect is to emit records, the same ones and
    with the same outcome in every world. *)
Definition emits_only {A : Type} (m : M A) : Prop :=
  exists (a : res A) (evs : list event), forall w, m w = (a, add_events w evs).

(** The error record of a row without its required fields. *)
Definition missing_required_fields (r : row) : event :=
  Logged ERROR
    (MsgErrorValidating (ValueError "Missing required fields: name or phone") r).

(** What the validator decides for a row. *)
Definition verdict (self : converter) (r : row) : option Contact :=
  match validate_contact self r initial_world with
  | (Ok o, _) => o
  | (Raise _, _) => None
  end.

(** The accepted contacts of a batch, in input order. *)
Definition accepted (self : converter) (rs : list row) : list Contact :=
  omap (verdict self) rs.

(** The rejected rows of a batch, in input order, numbered from [n]. *)
Fixpoint rejected_from (self : converter) (n : nat) (rs : list row) : list rejected :=
  match rs with
  | [] => []
  | r :: rs' =>
      match verdict self r with
      | Some _ => rejected_from self (S n) rs'
      | None => {| row_number := n; data := r |} :: rejected_from self (S n) rs'
      end
  end.

(** The output path [convert_to_vcard] settles on, lines 356-360. *)
Definition chosen_output (L : libs) (self : converter) (output_file : option path)
    (w : world) : path :=
  match output_file with
  | Some p => p
  | None =>
      {| parent := output_dir self;
         stem := "contacts_" ++ strftime_now L (clock w); suffix := ".vcf" |}
  end.

(** The world after each row of a batch went through the validator once, in
    order. *)
Definition validated_each (self : converter) (rs : list row) (w : world) : world :=
  foldl (fun w r => snd (validate_contact self r w)) w rs.

End Spec.

(** ** Sample data *)

Module Samples.
Import Py Convert2 Spec.

(** The two rows of the end-to-end scenario of the specification. *)
Definition john_row : row :=
  [(Some "name", CStr "John Smith"); (Some "phone", CStr "9876543210")].

Definition nameless_row : row :=
  [(Some "name", CStr ""); (Some "phone", CStr "123")].

Definition two_rows : list row := [john_row; nameless_row].

Definition john : Contact :=
  {| name := "John Smith"; phone := "+91  9876 5432 10"; email := None;
     organization := None; title := None; address := None; notes := None;
     groups := None |}.

(** A line with more fields than the header: the surplus is kept under the
    key [None]. *)
Definition long_row : row :=
  [(Some "name", CStr "Ann Lee"); (Some "phone", CStr "9123456780");
   (None, CList ["extra"])].

(** A row with a note of two lines, as a quoted CSV field may hold. *)
Definition two_line_note : str := "call" ++ nl ++ "back".

Definition noted_row : row :=
  [(Some "Name", CStr "Ann Lee"); (Some "Phone ", CStr "9123456780");
   (Some "notes", CStr two_line_note)].

Definition noted_contact : Contact :=
  {| name := "Ann Lee"; phone := "+91  9123 4567 80"; email := None;
     organization := None; title := None; address := None;
     notes := Some two_line_note; groups := None |}.

Definition full_contact : Contact :=
  {| name := "Ann Lee"; phone := "+91  9123 4567 80";
     email := Some "ann@example.org"; organization := Some "Acme";
     title := Some ""; address := Some "1 Main St"; notes := None;
     groups := None |}.

(** A row with a malformed email address, and the contact it becomes. *)
Definition bad_email_row : row :=
  [(Some "name", CStr "Ann Lee"); (Some "phone", CStr "9123456780");
   (Some "email", CStr "not-an-email")].

Definition bad_email_contact : Contact :=
  {| name := "Ann Lee"; phone := "+91  9123 4567 80"; email := None;
     organization := None; title := None; address := None; notes := None;
     groups := None |}.

(** The texts of two input files and what the reader yields for them. *)
Definition two_rows_text : str :=
  "name,phone" ++ nl ++ "John Smith,9876543210" ++ nl ++ ",123" ++ nl.

Definition no_contact_text : str := "name,phone" ++ nl ++ ",123" ++ nl.

Definition sample_reader (content : str) : csv_stream :=
  if str_eqb content two_rows_text
  then {| fieldnames := Some ["name"; "phone"]; rows := two_rows; failure := None |}
  else if str_eqb content no_contact_text
  then {| fieldnames := Some ["name"; "phone"]; rows := [nameless_row];
          failure := None |}
  else {| fieldnames := None; rows := []; failure := None |}.

Definition sample_libs : libs :=
  {| strftime_now := fun k => "20240101_12000" ++ [ascii_of_N (48 + N.of_nat (k mod 10))];
     csv_DictReader := sample_reader;
     json_dump := fun _ => "[...]";
     resolve := fun p => "/data/" ++ p;
     preview_records := fun p => [Printed (MsgPreview p)] |}.

Definition out_vcf : path :=
  {| parent := "output"; stem := "contacts"; suffix := ".vcf" |}.

(** A world with the two-row input and no output yet. *)
Definition world_two_rows : world :=
  {| fs := {[ "/data/contacts.csv" := two_rows_text ]}; clock := 0; emitted := [] |}.

(** A world whose input has no valid contact and whose output exists. *)
Definition world_no_contact : world :=
  {| fs := {[ "/data/contacts.csv" := no_contact_text;
              "output/contacts.vcf" := "BEGIN:VCARD" ]};
     clock := 0; emitted := [] |}.

(** A world without the input, whose output exists. *)
Definition world_no_input : world :=
  {| fs := {[ "output/contacts.vcf" := "BEGIN:VCARD" ]};
     clock := 0; emitted := [] |}.

End Samples.

(** ** Further notions *)

Module Notions.
Import Py Convert2 Spec.

(** The characters a normalised phone may hold. *)
Definition phone_char (self : converter) (c : ascii) : bool :=
  is_digit c || one_of " +" c || one_of (country_code self) c.

(** A header as the validator compares it. *)
Definition normal_key (k : str) : str := lower (strip k).

(** The headers the validator looks for. *)
Definition known_headers : list str :=
  ["name"; "phone"; "email"; "organization"; "org"; "title"; "address";
   "notes"; "note"].

(** The lookups of the optional fields, lines 227-249. *)
Definition optional_lookups : list (list str) :=
  [["email"]; ["organization"; "org"]; ["title"]; ["address"]; ["notes"; "note"]].

(** All the lookups of [validate_contact]. *)
Definition lookups : list (list str) := ["name"] :: ["phone"] :: optional_lookups.

(** Two rows with the same values under headers that compare equal. *)
Definition same_columns (r r' : row) : Prop :=
  Forall2 (fun kv kv' =>
             option_map normal_key (fst kv) = option_map normal_key (fst kv') /\
             snd kv = snd kv') r r'.

(** No value of the row holds a line break. *)
Definition row_single_line (r : row) : bool :=
  forallb (fun kv => match snd kv with
                     | CStr s => single_line s
                     | _ => true
                     end) r.

Definition is_some {A : Type} (o : option A) : bool :=
  match o with Some _ => true | None => false end.

(** The path of the rejection report, lines 308-311. *)
Definition report_path (self : converter) (stamp : str) : path :=
  {| parent := output_dir self; stem := "error_report_" ++ stamp;
     suffix := ".json" |}.

(** The text written to the output file, lines 375-377. *)
Definition payload (self : converter) (contacts : list Contact) : str :=
  join nl (map (create_vcard_entry self) contacts).

End Notions.

(** ** More sample data *)

Module MoreSamples.
Import Py Convert2 Spec.

(** A line shorter than the header: the missing cell is [None]. *)
Definition short_row : row :=
  [(Some "name", CStr "John Smith"); (Some "phone", CStr "9876543210");
   (Some "email", CNone)].

(** The first sample row under other spellings of its headers. *)
Definition shouting_row : row :=
  [(Some " NAME ", CStr "John Smith"); (Some "Phone", CStr "9876543210")].

(** The first sample row with a column the validator does not know. *)
Definition nickname_row : row :=
  [(Some "name", CStr "John Smith"); (Some "nickname", CStr "Jo");
   (Some "phone", CStr "9876543210")].

(** A row with every column the validator knows. *)
Definition complete_row : row :=
  [(Some "name", CStr "Ann Lee"); (Some "phone", CStr "9123456780");
   (Some "email", CStr " ann@example.org "); (Some "org", CStr "Acme");
   (Some "title", CStr ""); (Some "address", CStr "1 Main St");
   (Some "note", CStr "")].

Definition complete_contact : Contact :=
  {| name := "Ann Lee"; phone := "+91  9123 4567 80";
     email := Some "ann@example.org"; organization := Some "Acme";
     title := Some ""; address := Some "1 Main St"; notes := Some "";
     groups := None |}.


End MoreSamples.

(** ** The program: [convert.py]

    The first version of the converter: one dialect, a fixed country code,
    no logging.  Its rows are those of [Convert2]. *)

Module Convert.
Import Py.

Inductive exn : Type :=
| AttributeError (msg : str)
| FileNotFoundError (msg : str)
| CsvError (msg : str)        (* [csv.Error] *)
| OtherError (msg : str)      (* any other exception of [open] or of the codec *)
| ValueError (msg : str)
| Exception (msg : str).

Definition str_of_exn (e : exn) : str :=
  match e with
  | AttributeError m | FileNotFoundError m | CsvError m | OtherError m
  | ValueError m | Exception m => m
  end.

Inductive res (A : Type) : Type :=
| Ok (a : A)
| Raise (e : exn).
Arguments Ok {A} a.
Arguments Raise {A} e.

(** The dictionary [{'name': ..., 'phone': ...}] of a valid contact. *)
Record contact : Type := mkContact {
  name : str;
  phone : str
}.

(** What a [print] statement writes, by the values it interpolates. *)
Inductive printed : Type :=
| PrintMissing (row : Convert2.row)
| PrintNameTooShort (row : Convert2.row)
| PrintInvalidPhone (row : Convert2.row)
| PrintHeaders (fieldnames : option (list str))
| PrintProcessed (valid : nat)
| PrintFoundInvalid (invalid : nat)
| PrintSuccess (output_file : str) (total : nat)
| PrintError (e : exn).

Record world : Type := mkWorld {
  fs : gmap str str;          (* the regular files: path to contents *)
  stdout : list printed       (* what was printed, oldest first *)
}.

Definition M (A : Type) : Type := world -> res A * world.

Definition ret {A} (a : A) : M A := fun w => (Ok a, w).
Definition raise {A} (e : exn) : M A := fun w => (Raise e, w).
Definition bind {A B} (m : M A) (k : A -> M B) : M B :=
  fun w => match m w with
           | (Ok a, w') => k a w'
           | (Raise e, w') => (Raise e, w')
           end.
Definition lift {A} (r : res A) : M A := fun w => (r, w).
Definition try_except {A} (m : M A) (h : exn -> M A) : M A :=
  fun w => match m w with
           | (Ok a, w') => (Ok a, w')
           | (Raise e, w') => h e w'
           end.
Definition print (p : printed) : M unit :=
  fun w => (Ok tt, {| fs := fs w; stdout := stdout w ++ [p] |}).
Definition write_file (p : str) (content : str) : M unit :=
  fun w => (Ok tt, {| fs := <[p := content]> (fs w); stdout := stdout w |}).

Declare Scope conv_scope.
Delimit Scope conv_scope with conv.
Notation "x <- m ;; k" := (bind m (fun x => k))
  (at level 100, m at next level, right associativity) : conv_scope.
Notation "m ;; k" := (bind m (fun _ => k))
  (at level 100, right associativity) : conv_scope.
Local Open Scope conv_scope.

(** What [csv.DictReader] yields over the text of a file decoded as utf-8. *)
Record csv_stream : Type := mkStream {
  fieldnames : option (list str);
  rows : list Convert2.row;
  failure : option exn
}.

(** [clean_phone_number], lines 15-32. *)
Definition clean_phone_number (phone : str) : str :=
  let cleaned := List.filter is_digit phone in
  let cleaned :=
    if length cleaned =? 10
    then "+91" ++ cleaned
    else if (10 <? length cleaned) && negb (startswith "+" cleaned)
         then "+" ++ cleaned
         else cleaned in
  if startswith "+91" cleaned
  then slice cleaned 0 3 ++ " " ++ slice cleaned 3 8 ++ " " ++ drop 8 cleaned
  else cleaned.

(** The loops of lines 43-52: the keys are visited in order up to the
    first one that matches, whose value is stripped. *)
Fixpoint find_column (header : str) (row : Convert2.row) : res (option str) :=
  match row with
  | [] => Ok None
  | (key, value) :: rest =>
      match key with
      | None => Raise (AttributeError "'NoneType' object has no attribute 'strip'")
      | Some key =>
          if bool_decide (lower (strip key) = header)
          then match value with
               | Convert2.CStr s => Ok (Some (strip s))
               | Convert2.CNone =>
                   Raise (AttributeError "'NoneType' object has no attribute 'strip'")
               | Convert2.CList _ =>
                   Raise (AttributeError "'list' object has no attribute 'strip'")
               end
          else find_column header rest
      end
  end.

(** [re.search(r'\d', s)] *)
Definition has_digit (s : str) : bool := existsb is_digit s.

(** [validate_contact], lines 34-68. *)
Definition validate_contact (row : Convert2.row) : M (option contact) :=
  name <- lift (find_column "name" row) ;;
  phone <- lift (find_column "phone" row) ;;
  match name, phone with
  | Some ((_ :: _) as name), Some ((_ :: _) as phone) =>
      if length name <? 2
      then print (PrintNameTooShort row) ;; ret None
      else
        let cleaned_phone := clean_phone_number phone in
        if negb (has_digit cleaned_phone)
        then print (PrintInvalidPhone row) ;; ret None
        else ret (Some {| name := name; phone := cleaned_phone |})
  | _, _ =>
      (* [if not name or not phone] *)
      print (PrintMissing row) ;; ret None
  end.

(** The [for] loop of [read_contacts], lines 83-88. *)
Fixpoint read_rows (rs : list Convert2.row)
    (valid_contacts : list contact) (invalid_contacts : list Convert2.row)
    : M (list contact * list Convert2.row) :=
  match rs with
  | [] => ret (valid_contacts, invalid_contacts)
  | r :: rs' =>
      c <- validate_contact r ;;
      match c with
      | Some c => read_rows rs' (valid_contacts ++ [c]) invalid_contacts
      | None => read_rows rs' valid_contacts (invalid_contacts ++ [r])
      end
  end.

(** [read_contacts], lines 70-97; [reader] is what the [csv] module makes
    of the text of a file. *)
Definition read_contacts (reader : str -> csv_stream) (csv_file : str)
    : M (list contact) :=
  try_except
    (files <- (fun w => (Ok (fs w), w)) ;;
     match files !! csv_file with
     | None =>
         raise (FileNotFoundError
                  ("[Errno 2] No such file or directory: '" ++ csv_file ++ "'"))
     | Some content =>
         let stream := reader content in
         print (PrintHeaders (fieldnames stream)) ;;
         result <- read_rows (rows stream) [] [] ;;
         match failure stream with
         | Some e => raise e
         | None =>
             let '(valid_contacts, invalid_contacts) := result in
             print (PrintProcessed (length valid_contacts)) ;;
             match invalid_contacts with
             | [] => ret valid_contacts
             | _ :: _ =>
                 print (PrintFoundInvalid (length invalid_contacts)) ;;
                 ret valid_contacts
             end
         end
     end)
    (fun e =>
       match e with
       | FileNotFoundError _ | CsvError _ =>
           raise (Exception ("Error reading CSV file: " ++ str_of_exn e))
       | _ => raise e
       end).

(** The template of line 8, applied to a contact by [str.format]. *)
Definition vcard (c : contact) : str :=
  "BEGIN:VCARD" ++ nl ++
  "VERSION:2.1" ++ nl ++
  "N:;" ++ name c ++ ";;;" ++ nl ++
  "FN:" ++ name c ++ nl ++
  "TEL;CELL;PREF:" ++ phone c ++ nl ++
  "END:VCARD".

(** [create_vcards], lines 99-106. *)
Definition create_vcards (contacts : list contact) : str :=
  join nl (map vcard contacts).

(** [convert_to_vcard], lines 108-137.  The creation of the output
    directory changes nothing the world records. *)
Definition convert_to_vcard (reader : str -> csv_stream)
    (csv_file output_file : str) : M unit :=
  try_except
    (files <- (fun w => (Ok (fs w), w)) ;;
     match files !! csv_file with
     | None =>
         raise (FileNotFoundError ("Input file '" ++ csv_file ++ "' not found"))
     | Some _ =>
         contacts <- read_contacts reader csv_file ;;
         match contacts with
         | [] => raise (ValueError "No valid contacts found in the CSV file")
         | _ :: _ =>
             write_file output_file (create_vcards contacts) ;;
             print (PrintSuccess output_file (length contacts))
         end
     end)
    (fun e => print (PrintError e) ;; raise e).

(** The value of a column of a row of strings. *)
Definition column (header : str) (row : Convert2.row) : option str :=
  match find_column header row with
  | Ok v => v
  | Raise _ => None
  end.

(** The two parts of [clean_phone_number]: the prefix it puts before the
    digits, and the spaces it puts into a number that starts with [+91]. *)
Definition prefixed (ds : str) : str :=
  if length ds =? 10
  then "+91" ++ ds
  else if (10 <? length ds) && negb (startswith "+" ds) then "+" ++ ds else ds.

Definition spaced (c : str) : str :=
  if startswith "+91" c
  then slice c 0 3 ++ " " ++ slice c 3 8 ++ " " ++ drop 8 c
  else c.

Definition initial_world : world := {| fs := ∅; stdout := [] |}.

(** A line that stops after the name: its phone cell is [None]. *)
Definition phoneless_row : Convert2.row :=
  [(Some "name", Convert2.CStr "Ann Lee"); (Some "phone", Convert2.CNone)].

(** A reader for the sample text of the two rows; any other text is read
    as three rows, the second of which stops after the name. *)
Definition sample_reader (content : str) : csv_stream :=
  {| fieldnames := Some ["name"; "phone"];
     rows := if str_eqb content Samples.two_rows_text then Samples.two_rows
             else [Samples.john_row; phoneless_row; Samples.john_row];
     failure := None |}.

Definition world_two_rows : world :=
  {| fs := {[ "contacts.csv" := Samples.two_rows_text;
              "contacts.vcf" := "BEGIN:VCARD" ]};
     stdout := [] |}.

Definition world_short_line : world :=
  {| fs := {[ "contacts.csv" := "name,phone" ]}; stdout := [] |}.

End Convert.

(** ** Facts about the string operations *)

Module PyFacts.
Import Py Spec.

Lemma lstrip_head_not_space (s : str) (c : ascii) (t : str) :
  lstrip s = c :: t -> is_space c = false.
Proof.
  induction s as [|a s IH]; simpl; [discriminate|].
  destruct (is_space a) eqn:Ha; [exact IH|].
  intros H; injection H as -> _; exact Ha.
Qed.

Lemma lstrip_id (c : ascii) (t : str) :
  is_space c = false -> lstrip (c :: t) = c :: t.
Proof. intros H; simpl; now rewrite H. Qed.

Lemma lstrip_idempotent (s : str) : lstrip (lstrip s) = lstrip s.
Proof.
  destruct (lstrip s) as [|c t] eqn:E; [reflexivity|].
  apply lstrip_id, (lstrip_head_not_space s c t E).
Qed.

Lemma rstrip_snoc_id (u : str) (c : ascii) :
  is_space c = false -> rstrip (u ++ [c]) = u ++ [c].
Proof.
  intros H; unfold rstrip.
  rewrite rev_app_distr; simpl; rewrite H; simpl.
  now rewrite rev_involutive.
Qed.

Lemma rstrip_last_not_space (s u : str) (c : ascii) :
  rstrip s = u ++ [c] -> is_space c = false.
Proof.
  unfold rstrip; intros H.
  apply (f_equal (@rev ascii)) in H.
  rewrite rev_involutive, rev_app_distr in H; simpl in H.
  exact (lstrip_head_not_space _ _ _ H).
Qed.

Lemma lstrip_suffix (s : str) : exists ws, s = ws ++ lstrip s /\ all_space ws = true.
Proof.
  induction s as [|a s (ws & E & Hws)]; [now exists []|].
  simpl; destruct (is_space a) eqn:Ha.
  - exists (a :: ws); split; [simpl; congruence|].
    unfold all_space in *; simpl; now rewrite Ha.
  - now exists [].
Qed.

Lemma rstrip_prefix (s : str) : exists ws, s = rstrip s ++ ws /\ all_space ws = true.
Proof.
  unfold rstrip; destruct (lstrip_suffix (rev s)) as (ws & E & Hws).
  exists (rev ws); split.
  - rewrite <- rev_app_distr, <- E; now rewrite rev_involutive.
  - unfold all_space in *. rewrite forallb_forall in *.
    intros x Hx; apply Hws, in_rev; exact Hx.
Qed.

(** Stripping leaves a string that neither starts nor ends with whitespace. *)
Lemma strip_head_not_space (s : str) (c : ascii) (t : str) :
  strip s = c :: t -> is_space c = false.
Proof.
  unfold strip; intros H.
  destruct (rstrip_prefix (lstrip s)) as (ws & E & _).
  rewrite H in E; simpl in E.
  exact (lstrip_head_not_space s c _ E).
Qed.

Lemma strip_last_not_space (s u : str) (c : ascii) :
  strip s = u ++ [c] -> is_space c = false.
Proof. unfold strip; apply rstrip_last_not_space. Qed.

Lemma strip_id (c d : ascii) (u t : str) :
  is_space c = false -> is_space d = false ->
  c :: t = u ++ [d] -> strip (c :: t) = c :: t.
Proof.
  intros Hc Hd E; unfold strip.
  rewrite (lstrip_id c t Hc), E.
  now apply rstrip_snoc_id.
Qed.

Lemma strip_nil : strip [] = [].
Proof. reflexivity. Qed.

Lemma strip_idempotent (s : str) : strip (strip s) = strip s.
Proof.
  destruct (strip s) as [|c t] eqn:E; [reflexivity|].
  destruct (exists_last (l := c :: t)) as (u & d & Hu); [discriminate|].
  apply (strip_id c d u t); [| |exact Hu].
  - exact (strip_head_not_space s c t E).
  - apply (strip_last_not_space s u d); now rewrite E.
Qed.

Lemma digit_not_space (c : ascii) : is_digit c = true -> is_space c = false.
Proof.
  unfold is_digit, is_space, in_range; intros H.
  apply andb_true_iff in H as [H1 H2].
  apply N.leb_le in H1, H2.
  repeat (apply orb_false_iff; split);
    try (apply andb_false_iff); try (apply N.eqb_neq);
    rewrite ?N.leb_gt; lia.
Qed.

Lemma filter_all_digits (d : str) : all_digits d = true -> digits d = d.
Proof.
  unfold all_digits, digits; induction d as [|c d IH]; simpl; [reflexivity|].
  intros H; apply andb_true_iff in H as [Hc Hd].
  rewrite Hc; f_equal; auto.
Qed.

Lemma digits_all_digits (s : str) : all_digits (digits s) = true.
Proof.
  unfold all_digits, digits; induction s as [|c s IH]; simpl; [reflexivity|].
  destruct (is_digit c) eqn:Hc; simpl; [now rewrite Hc|exact IH].
Qed.

(** *** Cutting into chunks of four *)

Lemma range0_4_step (n : nat) :
  range0 (4 + n) 4 = 0 :: map (fun i => 4 + i) (range0 n 4).
Proof.
  unfold range0.
  replace ((4 + n + 4 - 1) / 4) with (S ((n + 4 - 1) / 4)).
  - rewrite <- cons_seq, <- seq_shift; cbn [map]; f_equal.
    rewrite !map_map; apply map_ext; intros k; lia.
  - replace (4 + n + 4 - 1) with (n + 4 - 1 + 1 * 4) by lia.
    rewrite Nat.div_add; lia.
Qed.

Lemma chunks4_nil : chunks4 [] = [].
Proof. reflexivity. Qed.

Lemma chunks4_step (a b c d : ascii) (t : str) :
  chunks4 (a :: b :: c :: d :: t) = [a; b; c; d] :: chunks4 t.
Proof.
  unfold chunks4.
  change (length (a :: b :: c :: d :: t)) with (4 + length t).
  rewrite range0_4_step; simpl; f_equal.
  rewrite map_map; apply map_ext; intros i.
  unfold slice; simpl.
  now replace (S (S (S (S (i + 4)))) - S (S (S (S i)))) with (i + 4 - i) by lia.
Qed.

Lemma chunks4_short (s : str) :
  s <> [] -> length s <= 4 -> chunks4 s = [s].
Proof.
  intros Hne Hlen.
  destruct s as [|a [|b [|c [|d [|e s]]]]]; simpl in Hlen;
    try congruence; try lia; reflexivity.
Qed.

Lemma regroup_zero (s : str) :
  regroup 0 s = match s with [] => [] | _ => " " ++ regroup4 s end.
Proof. destruct s; reflexivity. Qed.

(** Line 130 regroups its argument into 4-character chunks. *)
Lemma join_chunks4 (s : str) : join " " (chunks4 s) = regroup4 s.
Proof.
  remember (length s) as n eqn:Hn; revert s Hn.
  induction n as [n IH] using lt_wf_ind; intros s Hn.
  destruct s as [|a [|b [|c [|d t]]]]; try reflexivity.
  rewrite chunks4_step.
  unfold regroup4; simpl regroup; rewrite regroup_zero.
  destruct t as [|e t]; [reflexivity|].
  rewrite <- (IH (length (e :: t))); [|subst n; simpl; lia|reflexivity].
  destruct (chunks4 (e :: t)) eqn:E; [|reflexivity].
  exfalso. destruct t as [|f [|g [|h t]]]; try discriminate E.
  rewrite chunks4_step in E; discriminate.
Qed.

Lemma regroup_snoc (s : str) (c : ascii) (k : nat) :
  exists u, regroup k (s ++ [c]) = u ++ [c].
Proof.
  revert k; induction s as [|a s IH]; intros k; simpl.
  - destruct k; [now exists [" "%char]|now exists []].
  - destruct k.
    + destruct (IH 3) as (u & ->). now exists (" "%char :: a :: u).
    + destruct (IH k) as (u & ->). now exists (a :: u).
Qed.

End PyFacts.

(** ** Field Normalizer: [clean_phone_number] *)

Module PhoneNumber.
Import Py Convert2 Spec PyFacts.

Lemma strip_regroup4 (c d : ascii) (s u : str) :
  is_space c = false -> is_space d = false -> s = u ++ [d] ->
  strip (regroup4 (c :: s)) = regroup4 (c :: s).
Proof.
  intros Hc Hd ->; unfold regroup4; simpl.
  destruct (regroup_snoc u d 3) as (u' & ->).
  apply (strip_id c d (c :: u')); auto.
Qed.

Lemma all_digits_last (s u : str) (d : ascii) :
  all_digits s = true -> s = u ++ [d] -> is_digit d = true.
Proof.
  unfold all_digits; intros H ->.
  rewrite forallb_app in H; apply andb_true_iff in H as [_ H].
  simpl in H; now rewrite andb_true_r in H.
Qed.

Lemma startswith_plus_digits (s : str) :
  all_digits s = true -> startswith "+" s = false.
Proof.
  destruct s as [|c s]; [reflexivity|].
  unfold all_digits; cbn [startswith forallb]; intros H.
  destruct (Ascii.eqb_spec "+" c) as [<-|]; [discriminate H|reflexivity].
Qed.

(** The code of lines 125-131 once the digits are known. *)
Lemma clean_phone_number_unfold (self : converter) (phone : str) :
  clean_phone_number self phone =
  if length (digits phone) <? 10
  then Raise (ValueError ("Phone number too short: " ++ phone))
  else Ok (strip (regroup4
         (if length (digits phone) =? 10
          then country_code self ++ " " ++ digits phone
          else if (10 <? length (digits phone)) && negb (startswith "+" (digits phone))
               then "+" ++ digits phone
               else digits phone))).
Proof.
  unfold clean_phone_number; fold (digits phone).
  destruct (length (digits phone) <? 10); [reflexivity|].
  now rewrite <- join_chunks4.
Qed.

(** C4.  A string with fewer than 10 digit characters is refused: the call
    raises the "too short" [ValueError] and returns no value. *)
Theorem clean_phone_number_too_short (self : converter) (phone : str) :
  length (digits phone) < 10 ->
  clean_phone_number self phone =
  Raise (ValueError ("Phone number too short: " ++ phone)).
Proof.
  intros H; rewrite clean_phone_number_unfold.
  apply Nat.ltb_lt in H; now rewrite H.
Qed.

Lemma clean_phone_number_too_short_witness :
  clean_phone_number default_converter "12-345" =
  Raise (ValueError "Phone number too short: 12-345").
Proof.
  apply (clean_phone_number_too_short default_converter "12-345").
  vm_compute; lia.
Defined.

(** C1, as the code has it.  For a string [d] of exactly 10 digits the
    result is the prefix, a space and [d], regrouped as a whole into
    4-character chunks separated by single spaces, and trimmed.  With the
    default prefix ["+91"] the prefix and its space fill the first chunk, so
    that two spaces precede the regrouped digits of [d]. *)
Theorem clean_phone_number_ten_digits (self : converter) (d : str) :
  length d = 10 -> all_digits d = true ->
  clean_phone_number self d =
    Ok (strip (regroup4 (country_code self ++ " " ++ d))) /\
  (country_code self = "+91" ->
   clean_phone_number self d = Ok ("+91" ++ "  " ++ regroup4 d)).
Proof.
  intros Hlen Hd.
  assert (E : clean_phone_number self d =
              Ok (strip (regroup4 (country_code self ++ " " ++ d)))).
  { rewrite clean_phone_number_unfold, (filter_all_digits d Hd), Hlen.
    reflexivity. }
  split; [exact E|].
  intros Hcc; rewrite E, Hcc; f_equal.
  destruct (exists_last (l := d)) as (u & x & Hu).
  { intros ->; discriminate Hlen. }
  change ("+91" ++ " " ++ d) with ("+"%char :: ("91 " ++ d)).
  rewrite (strip_regroup4 "+" x ("91 " ++ d) ("91 " ++ u)).
  - destruct d; [discriminate Hlen|reflexivity].
  - reflexivity.
  - apply digit_not_space, (all_digits_last d u x Hd Hu).
  - now rewrite Hu.
Qed.

Lemma clean_phone_number_ten_digits_witness :
  clean_phone_number default_converter "9876543210" = Ok "+91  9876 5432 10".
Proof.
  apply (clean_phone_number_ten_digits default_converter "9876543210");
    reflexivity.
Defined.

(** C1, as the specification states it, fails: the result is not the prefix,
    one space and the regrouped digits. *)
Lemma clean_phone_number_ten_digits_counterexample :
  length "9876543210" = 10 /\ all_digits "9876543210" = true /\
  country_code default_converter ++ " " ++ regroup4 "9876543210"
    = "+91 9876 5432 10" /\
  clean_phone_number default_converter "9876543210" = Ok "+91  9876 5432 10" /\
  clean_phone_number default_converter "9876543210" <> Ok "+91 9876 5432 10".
Proof.
  repeat split; try reflexivity.
  vm_compute; discriminate.
Qed.

(** C10.  With more than 10 digits the result is ["+"] and the digits,
    regrouped as a whole into 4-character chunks: after the stripping of
    line 120 the string never starts with ["+"], so the guard of line 127
    always lets the prepending happen, whatever the raw input began with. *)
Theorem clean_phone_number_more_than_ten (self : converter) (phone : str) :
  10 < length (digits phone) ->
  startswith "+" (digits phone) = false /\
  clean_phone_number self phone = Ok (regroup4 ("+" ++ digits phone)).
Proof.
  intros Hlen.
  pose proof (startswith_plus_digits _ (digits_all_digits phone)) as Hsw.
  split; [exact Hsw|].
  rewrite clean_phone_number_unfold, Hsw.
  destruct (length (digits phone) <? 10) eqn:E1;
    [apply Nat.ltb_lt in E1; lia|].
  destruct (length (digits phone) =? 10) eqn:E2;
    [apply Nat.eqb_eq in E2; lia|].
  apply Nat.ltb_lt in Hlen as ->; simpl; f_equal.
  destruct (exists_last (l := digits phone)) as (u & x & Hu).
  { intros E; rewrite E in E1; discriminate E1. }
  apply (strip_regroup4 "+" x (digits phone) u); [reflexivity| |exact Hu].
  apply digit_not_space, (all_digits_last _ u x (digits_all_digits phone) Hu).
Qed.

Lemma clean_phone_number_more_than_ten_witness :
  clean_phone_number default_converter "+91 98765 43210" = Ok "+919 8765 4321 0".
Proof.
  apply (clean_phone_number_more_than_ten default_converter "+91 98765 43210").
  vm_compute; lia.
Defined.

End PhoneNumber.

(** ** Name Parser: [parse_name] *)

Module NameParser.
Import Py Convert2 Spec PyFacts.

Lemma tokens_space_cons (c : ascii) (s : str) (ts : list str) :
  is_space c = true -> tokens s ts -> tokens (c :: s) ts.
Proof.
  intros Hc H; destruct H as [ws Hws|ws t s ts Hws Ht1 Ht2 Hs Hts].
  - apply tokens_none; unfold all_space in *; simpl; now rewrite Hc.
  - apply (tokens_run (c :: ws) t s ts); auto.
    unfold all_space in *; simpl; now rewrite Hc.
Qed.

(** What [split_from] yields, without and with a run being read. *)
Lemma split_from_tokens (s : str) :
  tokens s (split_from [] s) /\
  forall cur, cur <> [] ->
    exists t s' ts,
      s = t ++ s' /\ no_space t = true /\
      (s' = [] \/ exists c s'', s' = c :: s'' /\ is_space c = true) /\
      tokens s' ts /\
      split_from cur s = (rev cur ++ t) :: ts.
Proof.
  induction s as [|c s [IH0 IH1]].
  - split; [now apply tokens_none|].
    intros cur Hcur; exists [], [], [].
    destruct cur as [|a cur]; [congruence|].
    repeat split; auto; [now apply tokens_none|].
    cbn [split_from]; now rewrite app_nil_r.
  - cbn [split_from]; destruct (is_space c) eqn:Hc.
    + split; [now apply tokens_space_cons|].
      intros cur Hcur; exists [], (c :: s), (split_from [] s).
      destruct cur as [|a cur]; [congruence|].
      repeat split.
      * right; now exists c, s.
      * now apply tokens_space_cons.
      * now rewrite app_nil_r.
    + split.
      * destruct (IH1 [c] ltac:(discriminate))
          as (t & s' & ts & -> & Ht & Hs' & Hts & ->).
        apply (tokens_run [] (c :: t) s' ts); auto; try discriminate.
        unfold no_space in *; simpl; now rewrite Hc.
      * intros cur Hcur.
        destruct (IH1 (c :: cur) ltac:(discriminate))
          as (t & s' & ts & -> & Ht & Hs' & Hts & ->).
        exists (c :: t), s', ts; repeat split; auto.
        -- unfold no_space in *; simpl; now rewrite Hc.
        -- simpl; now rewrite <- app_assoc.
Qed.

(** [split] cuts a string at its whitespace runs. *)
Lemma tokens_split (s : str) : tokens s (split s).
Proof. exact (proj1 (split_from_tokens s)). Qed.

Lemma split_from_spaces (ws s : str) :
  all_space ws = true -> split_from [] (ws ++ s) = split_from [] s.
Proof.
  unfold all_space; induction ws as [|c ws IH]; simpl; [reflexivity|].
  intros H; apply andb_true_iff in H as [-> H]; auto.
Qed.

Lemma split_from_run (t cur s : str) :
  no_space t = true -> split_from cur (t ++ s) = split_from (rev t ++ cur) s.
Proof.
  unfold no_space; revert cur; induction t as [|c t IH]; intros cur; simpl;
    [reflexivity|].
  intros H; apply andb_true_iff in H as [Hc H].
  apply negb_true_iff in Hc; rewrite Hc, (IH _ H).
  now rewrite <- app_assoc.
Qed.

(** The tokens of a string are those [split] finds. *)
Lemma tokens_unique (s : str) (ts : list str) : tokens s ts -> ts = split s.
Proof.
  unfold split; induction 1 as [ws Hws|ws t s ts Hws Ht1 Ht2 Hs _ IH].
  - rewrite <- (app_nil_r ws), (split_from_spaces ws [] Hws); reflexivity.
  - rewrite (split_from_spaces ws _ Hws), (split_from_run t [] s Ht2).
    rewrite app_nil_r.
    assert (Hrev : rev t <> []).
    { intros E; apply Ht1; rewrite <- (rev_involutive t), E; reflexivity. }
    destruct Hs as [->|(c & s' & -> & Hc)].
    + cbn [split_from] in *; subst ts.
      destruct (rev t) eqn:E; [congruence|].
      now rewrite <- E, rev_involutive.
    + cbn [split_from] in *; rewrite Hc in *; subst ts.
      destruct (rev t) eqn:E; [congruence|].
      now rewrite <- E, rev_involutive.
Qed.

(** C8.  The trimmed input has tokens, its maximal runs of non-whitespace
    characters; with none the three results are empty, with one token [t]
    they are [(t, "", t)], with more they are the first token, the others
    joined by single spaces, and the trimmed input as it stands. *)
Theorem parse_name_tokens (name : str) :
  (exists ts, tokens (strip name) ts) /\
  (forall ts, tokens (strip name) ts ->
     parse_name name =
     match ts with
     | [] => ("", "", "")
     | [t] => (t, "", t)
     | t :: rest => (t, join " " rest, strip name)
     end) /\
  parse_name "Madonna" = ("Madonna", "", "Madonna") /\
  parse_name "Jane Mary Doe" = ("Jane", "Mary Doe", "Jane Mary Doe").
Proof.
  split; [exists (split (strip name)); apply tokens_split|].
  split; [|split; reflexivity].
  intros ts Hts; apply tokens_unique in Hts; subst ts.
  unfold parse_name.
  destruct (split (strip name)) as [|t [|t' rest]]; reflexivity.
Qed.

Lemma parse_name_tokens_witness :
  parse_name "  Jane   Mary Doe " = ("Jane", "Mary Doe", "Jane   Mary Doe").
Proof.
  exact (proj1 (proj2 (parse_name_tokens "  Jane   Mary Doe ")) _
           (tokens_split (strip "  Jane   Mary Doe "))).
Defined.

End NameParser.

(** ** Matching by derivatives decides the language of an expression *)

Module ReFacts.
Import Re.

Lemma lang_void_inv (s : str) : ~ lang Void s.
Proof. intros H; inversion H. Qed.

Lemma lang_eps_inv (s : str) : lang Eps s -> s = [].
Proof. intros H; now inversion H. Qed.

Lemma lang_class_inv (p : ascii -> bool) (s : str) :
  lang (Class p) s -> exists c, s = [c] /\ p c = true.
Proof. intros H; inversion H; subst; eauto. Qed.

Lemma lang_seq_inv (r1 r2 : regex) (s : str) :
  lang (Seq r1 r2) s -> exists s1 s2, s = s1 ++ s2 /\ lang r1 s1 /\ lang r2 s2.
Proof. intros H; inversion H; subst; eauto. Qed.

Lemma lang_alt_inv (r1 r2 : regex) (s : str) :
  lang (Alt r1 r2) s -> lang r1 s \/ lang r2 s.
Proof. intros H; inversion H; subst; auto. Qed.

(** A non-empty word of [r*] starts with a non-empty word of [r]. *)
Lemma lang_star_cons_inv (r : regex) (c : ascii) (s : str) :
  lang (Star r) (c :: s) ->
  exists s1 s2, s = s1 ++ s2 /\ lang r (c :: s1) /\ lang (Star r) s2.
Proof.
  intros H; remember (Star r) as r' eqn:Er; remember (c :: s) as cs eqn:Es.
  revert Er Es.
  induction H as [| | | | | |r0 s1 s2 H1 _ H2 IH2]; intros Er Es;
    try discriminate.
  injection Er as ->.
  destruct s1 as [|a s1]; simpl in Es.
  - now apply IH2.
  - injection Es as -> <-; eauto.
Qed.

Lemma nullable_spec (r : regex) : nullable r = true <-> lang r [].
Proof.
  induction r as [| |p|r1 IH1 r2 IH2|r1 IH1 r2 IH2|r IH]; simpl.
  - split; [discriminate|intros H; inversion H].
  - split; [constructor|reflexivity].
  - split; [discriminate|intros H; inversion H].
  - rewrite andb_true_iff, IH1, IH2; split.
    + intros [H1 H2]; exact (lang_seq _ _ [] [] H1 H2).
    + intros H; apply lang_seq_inv in H as (s1 & s2 & E & H1 & H2).
      symmetry in E; apply app_eq_nil in E as [-> ->]; auto.
  - rewrite orb_true_iff, IH1, IH2; split.
    + intros [H|H]; [now apply lang_alt_l|now apply lang_alt_r].
    + apply lang_alt_inv.
  - split; [constructor|reflexivity].
Qed.

Lemma deriv_spec (c : ascii) (r : regex) (s : str) :
  lang (deriv c r) s <-> lang r (c :: s).
Proof.
  revert s; induction r as [| |p|r1 IH1 r2 IH2|r1 IH1 r2 IH2|r IH];
    intros s; simpl.
  - split; intros H; inversion H.
  - split; intros H; inversion H.
  - destruct (p c) eqn:Hp; split; intros H.
    + apply lang_eps_inv in H as ->; now constructor.
    + apply lang_class_inv in H as (c' & E & _); injection E as _ ->; constructor.
    + inversion H.
    + apply lang_class_inv in H as (c' & E & Hc); injection E as -> _; congruence.
  - assert (Hseq : lang (Seq (deriv c r1) r2) s ->
                   lang (Seq r1 r2) (c :: s)).
    { intros H; apply lang_seq_inv in H as (s1 & s2 & -> & H1 & H2).
      apply IH1 in H1; exact (lang_seq _ _ (c :: s1) s2 H1 H2). }
    assert (Hinv : lang (Seq r1 r2) (c :: s) ->
                   lang (Seq (deriv c r1) r2) s \/
                   (lang r1 [] /\ lang r2 (c :: s))).
    { intros H; apply lang_seq_inv in H as (s1 & s2 & E & H1 & H2).
      destruct s1 as [|a s1]; simpl in E.
      - right; subst s2; auto.
      - injection E as <- ->; left; apply lang_seq; [now apply IH1|exact H2]. }
    destruct (nullable r1) eqn:Hn; split; intros H.
    + apply lang_alt_inv in H as [H|H]; [auto|].
      apply IH2 in H; apply nullable_spec in Hn.
      exact (lang_seq _ _ [] (c :: s) Hn H).
    + apply Hinv in H as [H|[_ H]]; [now apply lang_alt_l|].
      apply lang_alt_r; now apply IH2.
    + auto.
    + apply Hinv in H as [H|[H _]]; [exact H|].
      apply nullable_spec in H; congruence.
  - split; intros H.
    + apply lang_alt_inv in H as [H|H];
        [apply lang_alt_l; now apply IH1|apply lang_alt_r; now apply IH2].
    + apply lang_alt_inv in H as [H|H];
        [apply lang_alt_l; now apply IH1|apply lang_alt_r; now apply IH2].
  - split; intros H.
    + apply lang_seq_inv in H as (s1 & s2 & -> & H1 & H2).
      apply IH in H1; exact (lang_star_app _ (c :: s1) s2 H1 H2).
    + apply lang_star_cons_inv in H as (s1 & s2 & -> & H1 & H2).
      apply lang_seq; [now apply IH|exact H2].
Qed.

Lemma fullmatch_spec (r : regex) (s : str) : fullmatch r s = true <-> lang r s.
Proof.
  revert r; induction s as [|c s IH]; intros r; simpl.
  - apply nullable_spec.
  - rewrite IH; apply deriv_spec.
Qed.

(** The languages of the shapes the pattern is built from. *)

Lemma lang_star_class (p : ascii -> bool) (s : str) :
  lang (Star (Class p)) s <-> forallb p s = true.
Proof.
  split.
  - revert s; induction s as [|c s IH]; intros H; [reflexivity|].
    apply lang_star_cons_inv in H as (s1 & s2 & -> & H1 & H2).
    apply lang_class_inv in H1 as (c' & E & Hc); injection E as -> ->.
    simpl; rewrite Hc; auto.
  - induction s as [|c s IH]; simpl; intros H; [constructor|].
    apply andb_true_iff in H as [Hc Hs].
    apply (lang_star_app _ [c] s); [now constructor|auto].
Qed.

Lemma lang_plus_class (p : ascii -> bool) (s : str) :
  lang (Plus (Class p)) s <-> s <> [] /\ forallb p s = true.
Proof.
  unfold Plus; split.
  - intros H; apply lang_seq_inv in H as (s1 & s2 & -> & H1 & H2).
    apply lang_class_inv in H1 as (c & -> & Hc).
    apply lang_star_class in H2; simpl; rewrite Hc; split; [discriminate|auto].
  - intros [Hne H]; destruct s as [|c s]; [congruence|].
    simpl in H; apply andb_true_iff in H as [Hc Hs].
    apply (lang_seq _ _ [c] s); [now constructor|now apply lang_star_class].
Qed.

Lemma lang_atleast2_class (p : ascii -> bool) (s : str) :
  lang (AtLeast2 (Class p)) s <-> 2 <= length s /\ forallb p s = true.
Proof.
  unfold AtLeast2; split.
  - intros H; apply lang_seq_inv in H as (s1 & s2 & -> & H1 & H2).
    apply lang_class_inv in H1 as (c & -> & Hc).
    apply (proj1 (lang_plus_class p s2)) in H2 as [Hne H2].
    destruct s2; [congruence|]; simpl in *; rewrite Hc; split; [lia|auto].
  - intros [Hlen H]; destruct s as [|c s]; [simpl in Hlen; lia|].
    simpl in H; apply andb_true_iff in H as [Hc Hs].
    apply (lang_seq _ _ [c] s); [now constructor|].
    apply (proj2 (lang_plus_class p s)); split; [|exact Hs].
    intros ->; simpl in Hlen; lia.
Qed.

Lemma lang_end_anchor (s : str) :
  lang EndAnchor s <-> s = [] \/ s = Py.nl.
Proof.
  unfold EndAnchor; split.
  - intros H; apply lang_alt_inv in H as [H|H].
    + left; now apply lang_eps_inv.
    + right; apply lang_class_inv in H as (c & -> & Hc).
      apply bool_decide_eq_true in Hc; now subst c.
  - intros [->| ->]; [apply lang_alt_l; constructor|].
    apply lang_alt_r; now constructor.
Qed.

End ReFacts.

(** ** Field Normalizer: [validate_email] *)

Module EmailAddress.
Import Py Re Convert2 Spec PyFacts ReFacts.

Lemma lang_one_char (a : ascii) (s : str) :
  lang (Class (one_of [a])) s <-> s = [a].
Proof.
  split.
  - intros H; apply lang_class_inv in H as (c & -> & Hc).
    unfold one_of in Hc; apply bool_decide_eq_true in Hc.
    apply list_elem_of_singleton in Hc; now subst.
  - intros ->; constructor; unfold one_of; apply bool_decide_eq_true.
    now apply list_elem_of_singleton.
Qed.

(** The words of the pattern of [validate_email]. *)
Lemma lang_email_regex (s : str) :
  lang email_regex s <->
  exists local domain tld e : str,
    s = local ++ "@" ++ domain ++ "." ++ tld ++ e /\
    (local <> [] /\ forallb local_char local = true) /\
    (domain <> [] /\ forallb domain_char domain = true) /\
    (2 <= length tld /\ forallb is_letter tld = true) /\
    (e = [] \/ e = nl).
Proof.
  unfold email_regex; split.
  - intros H.
    apply lang_seq_inv in H as (local & s1 & -> & Hl & H).
    apply lang_seq_inv in H as (at_ & s2 & -> & Ha & H).
    apply lang_seq_inv in H as (domain & s3 & -> & Hd & H).
    apply lang_seq_inv in H as (dot & s4 & -> & Hp & H).
    apply lang_seq_inv in H as (tld & e & -> & Ht & He).
    apply (lang_one_char "@") in Ha as ->.
    apply (lang_one_char ".") in Hp as ->.
    exists local, domain, tld, e; split; [reflexivity|].
    split; [now apply lang_plus_class|].
    split; [now apply lang_plus_class|].
    split; [now apply lang_atleast2_class|now apply lang_end_anchor].
  - intros (local & domain & tld & e & -> & Hl & Hd & Ht & He).
    apply lang_seq; [now apply lang_plus_class|].
    apply (lang_seq _ _ "@"); [now apply (lang_one_char "@")|].
    apply lang_seq; [now apply lang_plus_class|].
    apply (lang_seq _ _ "."); [now apply (lang_one_char ".")|].
    apply lang_seq; [now apply lang_atleast2_class|now apply lang_end_anchor].
Qed.

(** On a trimmed string the pattern of the code and the pattern of the
    specification agree: [$] cannot be matched before a final newline. *)
Lemma fullmatch_email_strip (raw : str) :
  fullmatch email_regex (strip raw) = true <-> email_pattern (strip raw).
Proof.
  rewrite fullmatch_spec, lang_email_regex; unfold email_pattern; split.
  - intros (local & domain & tld & e & E & (Hl1 & Hl2) & (Hd1 & Hd2) & (Ht1 & Ht2) & He).
    destruct He as [->| ->].
    + rewrite app_nil_r in E; exists local, domain, tld; auto 10.
    + exfalso.
      assert (Hsp : is_space (ascii_of_N 10) = false).
      { apply (strip_last_not_space raw (local ++ "@" ++ domain ++ "." ++ tld)).
        rewrite E, <- !app_assoc; reflexivity. }
      discriminate Hsp.
  - intros (local & domain & tld & E & Hl1 & Hl2 & Hd1 & Hd2 & Ht1 & Ht2).
    exists local, domain, tld, []; rewrite app_nil_r; auto 10.
Qed.

(** C7.  [None] and the empty string give [None]; any other input is
    trimmed, and the trimmed address is returned exactly when it has the
    shape [local-part@domain.tld]; otherwise the result is [None].  The call
    returns in every case: a malformed address raises nothing, and the row
    that holds it still becomes a contact, without an email. *)
Theorem validate_email_spec (w : world) :
  validate_email None w = (Ok None, w) /\
  validate_email (Some []) w = (Ok None, w) /\
  (forall raw, raw <> [] ->
     (email_pattern (strip raw) ->
      validate_email (Some raw) w = (Ok (Some (strip raw)), w)) /\
     (~ email_pattern (strip raw) ->
      fst (validate_email (Some raw) w) = Ok None)) /\
  (forall e, exists o w', validate_email e w = (Ok o, w') /\ fs w' = fs w) /\
  validate_email (Some "a@b.co") w = (Ok (Some "a@b.co"), w) /\
  fst (validate_email (Some "not-an-email") w) = Ok None /\
  fst (validate_contact default_converter Samples.bad_email_row w)
  = Ok (Some Samples.bad_email_contact).
Proof.
  split; [reflexivity|]. split; [reflexivity|].
  split; [|split; [|repeat split; reflexivity]].
  - intros raw Hraw; destruct raw as [|c raw]; [congruence|].
    unfold validate_email.
    pose proof (fullmatch_email_strip (c :: raw)) as Hm.
    destruct (fullmatch email_regex (strip (c :: raw))); split; intros H.
    + reflexivity.
    + exfalso; apply H, Hm; reflexivity.
    + apply Hm in H; discriminate H.
    + reflexivity.
  - intros [[|c raw]|]; try (now exists None, w).
    unfold validate_email.
    destruct (fullmatch email_regex (strip (c :: raw))); eauto.
Qed.

Lemma validate_email_spec_witness :
  validate_email (Some " jane.doe@example.org ") initial_world
  = (Ok (Some "jane.doe@example.org"), initial_world).
Proof.
  apply (proj1 (proj1 (proj2 (proj2 (validate_email_spec initial_world)))
                  " jane.doe@example.org " ltac:(discriminate))).
  exists "jane.doe", "example", "org"; repeat split; try discriminate.
  vm_compute; lia.
Defined.

End EmailAddress.

(** ** Record Validator: [validate_contact] *)

Module Validator.
Import Py Convert2 Spec PyFacts.
Local Open Scope py_scope.

Lemma add_events_nil (w : world) : add_events w [] = w.
Proof. destruct w; unfold add_events; simpl; now rewrite app_nil_r. Qed.

Lemma add_events_app (w : world) (e1 e2 : list event) :
  add_events (add_events w e1) e2 = add_events w (e1 ++ e2).
Proof. unfold add_events; simpl; now rewrite app_assoc. Qed.

Lemma emits_only_lift {A} (r : res A) : emits_only (lift r).
Proof. exists r, []; intros w; unfold lift; now rewrite add_events_nil. Qed.

Lemma emits_only_ret {A} (a : A) : emits_only (ret a).
Proof. exact (emits_only_lift (Ok a)). Qed.

Lemma emits_only_raise {A} (e : exn) : emits_only (@raise A e).
Proof. exact (emits_only_lift (Raise e)). Qed.

Lemma emits_only_emit (ev : event) : emits_only (emit ev).
Proof. now exists (Ok tt), [ev]. Qed.

Lemma emits_only_bind {A B} (m : M A) (k : A -> M B) :
  emits_only m -> (forall a, emits_only (k a)) -> emits_only (bind m k).
Proof.
  intros (a & evs & Hm) Hk; destruct a as [a|e].
  - destruct (Hk a) as (b & evs' & Hka).
    exists b, (evs ++ evs'); intros w; unfold bind.
    now rewrite Hm, Hka, add_events_app.
  - exists (Raise e), evs; intros w; unfold bind; now rewrite Hm.
Qed.

Lemma emits_only_try_except {A} (m : M A) (h : exn -> M A) :
  emits_only m -> (forall e, emits_only (h e)) -> emits_only (try_except m h).
Proof.
  intros (a & evs & Hm) Hh; destruct a as [a|e].
  - exists (Ok a), evs; intros w; unfold try_except; now rewrite Hm.
  - destruct (Hh e) as (b & evs' & Hhe).
    exists b, (evs ++ evs'); intros w; unfold try_except.
    now rewrite Hm, Hhe, add_events_app.
Qed.

Lemma emits_only_validate_email (e : option str) : emits_only (validate_email e).
Proof.
  destruct e as [[|c e]|]; try apply emits_only_ret.
  unfold validate_email.
  destruct (Re.fullmatch email_regex (strip (c :: e))); [apply emits_only_ret|].
  apply emits_only_bind; [apply emits_only_emit|intros; apply emits_only_ret].
Qed.

Ltac emits_only_step :=
  first [ apply emits_only_ret | apply emits_only_raise | apply emits_only_lift
        | apply emits_only_emit | apply emits_only_validate_email
        | apply emits_only_bind; [|intros ?] ].

Lemma emits_only_validate_contact_body (self : converter) (r : row) :
  emits_only (validate_contact_body self r).
Proof.
  unfold validate_contact_body.
  apply emits_only_bind; [emits_only_step|intros name].
  apply emits_only_bind; [emits_only_step|intros phone].
  destruct name as [[|a name]|], phone as [[|b phone]|];
    repeat emits_only_step.
Qed.

Lemma emits_only_validate_contact (self : converter) (r : row) :
  emits_only (validate_contact self r).
Proof.
  unfold validate_contact; apply emits_only_try_except.
  - apply emits_only_bind; [apply emits_only_validate_contact_body|].
    intros; apply emits_only_ret.
  - intros e; repeat emits_only_step.
Qed.

(** The validator lets no exception out. *)
Lemma validate_contact_returns (self : converter) (r : row) (w : world) :
  exists o w', validate_contact self r w = (Ok o, w').
Proof.
  unfold validate_contact, try_except, bind.
  destruct (validate_contact_body self r w) as [[c|e] w']; eauto.
Qed.

(** In every world the validator returns its verdict and emits the same
    records. *)
Lemma validate_contact_verdict (self : converter) (r : row) :
  exists evs, forall w,
    validate_contact self r w = (Ok (verdict self r), add_events w evs).
Proof.
  destruct (emits_only_validate_contact self r) as (a & evs & H).
  exists evs; intros w; unfold verdict; rewrite !H.
  destruct (validate_contact_returns self r w) as (o & w' & E).
  rewrite H in E; injection E as -> _; reflexivity.
Qed.

Lemma next_field_stripped (names : list str) (r : row) (v : str) :
  next_field names r = Ok (Some v) -> strip v = v.
Proof.
  induction r as [|[[k|] x] r IH]; simpl; try discriminate.
  destruct (bool_decide (lower (strip k) ∈ names)); [|exact IH].
  destruct x; try discriminate.
  intros E; injection E as <-; apply strip_idempotent.
Qed.

Lemma next_field_well_typed (names : list str) (r : row) :
  well_typed r = true -> next_field names r = Ok (field names r).
Proof.
  unfold field; induction r as [|[[k|] x] r IH]; simpl; try discriminate;
    [reflexivity|].
  destruct x; try discriminate; intros H.
  destruct (bool_decide (lower (strip k) ∈ names)); [reflexivity|auto].
Qed.

(** What a successful run of the body went through. *)
Lemma validate_contact_body_ok (self : converter) (r : row) (w w' : world)
    (c : Contact) :
  validate_contact_body self r w = (Ok c, w') ->
  exists p,
    next_field ["name"] r = Ok (Some (name c)) /\ name c <> [] /\
    next_field ["phone"] r = Ok (Some p) /\ p <> [] /\
    clean_phone_number self p = Ok (phone c).
Proof.
  unfold validate_contact_body, bind, lift.
  destruct (next_field ["name"] r) as [n|e]; [|discriminate].
  destruct (next_field ["phone"] r) as [p|e]; [|discriminate].
  destruct n as [[|a n]|]; try discriminate;
    destruct p as [[|b p]|]; try discriminate.
  destruct (clean_phone_number self (b :: p)) as [cp|e] eqn:Ecp; [|discriminate].
  destruct (next_field ["email"] r) as [em|e]; [|discriminate].
  destruct (validate_email em w) as [[em'|e] w1]; [|discriminate].
  destruct (next_field ["organization"; "org"] r) as [org|e]; [|discriminate].
  destruct (next_field ["title"] r) as [ti|e]; [|discriminate].
  destruct (next_field ["address"] r) as [ad|e]; [|discriminate].
  destruct (next_field ["notes"; "note"] r) as [no|e]; [|discriminate].
  unfold ret; intros E; inversion E; subst; simpl.
  exists (b :: p); repeat split; auto; discriminate.
Qed.

(** The optional fields reject no row of strings. *)
Lemma validate_contact_body_builds (self : converter) (r : row) (w : world)
    (n p cp : str) :
  well_typed r = true ->
  field ["name"] r = Some n -> n <> [] ->
  field ["phone"] r = Some p -> p <> [] ->
  clean_phone_number self p = Ok cp ->
  exists c w', validate_contact_body self r w = (Ok c, w') /\
               name c = n /\ phone c = cp.
Proof.
  intros Hwt Hn Hne Hp Hpe Hcp.
  unfold validate_contact_body, bind, lift.
  rewrite !(next_field_well_typed _ r Hwt), Hn, Hp.
  destruct n as [|a n]; [congruence|]; destruct p as [|b p]; [congruence|].
  rewrite Hcp.
  destruct (emits_only_validate_email (field ["email"] r)) as (e & evs & He).
  pose proof (He w) as Hw; rewrite Hw.
  destruct e as [e|e].
  - unfold ret; eauto.
  - exfalso. destruct (field ["email"] r) as [[|x em]|];
      try discriminate Hw.
    unfold validate_email in Hw.
    destruct (Re.fullmatch email_regex (strip (x :: em))); discriminate Hw.
Qed.

(** C2.  A contact the validator builds has a name that is non-empty and
    trimmed, taken from the row, and carries the normalised form of the
    row's phone, which [clean_phone_number] accepted.  A row of strings
    whose name or phone is absent or empty yields no contact, and the error
    record gives the missing required fields as the reason.  These are the
    only checks: a row of strings with a name and a phone that
    [clean_phone_number] accepts becomes a contact. *)
Theorem validate_contact_checks (self : converter) (r : row) (w : world) :
  (forall c w',
     validate_contact self r w = (Ok (Some c), w') ->
     name c <> [] /\ strip (name c) = name c /\
     next_field ["name"] r = Ok (Some (name c)) /\
     exists p, next_field ["phone"] r = Ok (Some p) /\ p <> [] /\
               clean_phone_number self p = Ok (phone c)) /\
  (well_typed r = true ->
   truthy (field ["name"] r) = false \/ truthy (field ["phone"] r) = false ->
   validate_contact self r w =
   (Ok None, add_events w [missing_required_fields r])) /\
  (forall n p cp,
     well_typed r = true ->
     field ["name"] r = Some n -> n <> [] ->
     field ["phone"] r = Some p -> p <> [] ->
     clean_phone_number self p = Ok cp ->
     exists c w', validate_contact self r w = (Ok (Some c), w') /\
                  name c = n /\ phone c = cp).
Proof.
  split; [|split].
  - intros c w'; unfold validate_contact, try_except, bind at 1.
    destruct (validate_contact_body self r w) as [[c0|e] w0] eqn:E;
      [|discriminate].
    unfold ret; intros H; injection H as -> ->.
    apply validate_contact_body_ok in E as (p & Hn & Hne & Hp & Hpe & Hc).
    split; [exact Hne|]. split; [exact (next_field_stripped _ _ _ Hn)|].
    split; [exact Hn|]. now exists p.
  - intros Hwt Hmiss.
    unfold validate_contact, try_except, validate_contact_body, bind, lift.
    rewrite !(next_field_well_typed _ r Hwt).
    destruct (field ["name"] r) as [[|a n]|], (field ["phone"] r) as [[|b p]|];
      try reflexivity; destruct Hmiss; discriminate.
  - intros n p cp Hwt Hn Hne Hp Hpe Hcp.
    destruct (validate_contact_body_builds self r w n p cp)
      as (c & w' & E & Hc); auto.
    exists c, w'; split; [|exact Hc].
    unfold validate_contact, try_except, bind; now rewrite E.
Qed.

Lemma validate_contact_checks_witness :
  (name Samples.john <> [] /\ strip (name Samples.john) = name Samples.john) /\
  validate_contact default_converter Samples.nameless_row initial_world =
  (Ok None, add_events initial_world
              [missing_required_fields Samples.nameless_row]).
Proof.
  split.
  - pose proof (proj1 (validate_contact_checks default_converter Samples.john_row
                         initial_world) Samples.john initial_world eq_refl) as H.
    split; [exact (proj1 H)|exact (proj1 (proj2 H))].
  - apply (proj1 (proj2 (validate_contact_checks default_converter
                           Samples.nameless_row initial_world)));
      [reflexivity|left; reflexivity].
Defined.

End Validator.

(** ** Batch Reader: [read_contacts] *)

Module BatchReader.
Import Py Convert2 Spec PyFacts Validator.
Local Open Scope py_scope.

Lemma add_events_fs (w : world) (evs : list event) : fs (add_events w evs) = fs w.
Proof. reflexivity. Qed.

Lemma validated_each_cons (self : converter) (r : row) (rs : list row) (w : world) :
  validated_each self (r :: rs) w =
  validated_each self rs (snd (validate_contact self r w)).
Proof. reflexivity. Qed.

Lemma validated_each_fs (self : converter) (rs : list row) (w : world) :
  fs (validated_each self rs w) = fs w.
Proof.
  revert w; induction rs as [|r rs IH]; intros w; [reflexivity|].
  rewrite validated_each_cons, IH.
  destruct (validate_contact_verdict self r) as (evs & H).
  now rewrite H.
Qed.

Lemma accepted_cons (self : converter) (r : row) (rs : list row) :
  accepted self (r :: rs) =
  match verdict self r with
  | Some c => c :: accepted self rs
  | None => accepted self rs
  end.
Proof. reflexivity. Qed.

(** The loop sends each row through the validator once, in order, and
    appends what it decides to one of the two lists. *)
Lemma read_rows_spec (self : converter) (rs : list row) :
  forall (n : nat) (vs : list Contact) (js : list rejected) (w : world),
    read_rows self n rs vs js w =
    (Ok (vs ++ accepted self rs, js ++ rejected_from self n rs),
     validated_each self rs w).
Proof.
  induction rs as [|r rs IH]; intros n vs js w.
  - simpl; unfold ret, accepted; simpl; now rewrite !app_nil_r.
  - rewrite validated_each_cons; cbn [read_rows]; unfold bind at 1.
    destruct (validate_contact_verdict self r) as (evs & H); rewrite H.
    rewrite accepted_cons; cbn [rejected_from snd].
    destruct (verdict self r) as [c|]; rewrite IH, <- !app_assoc; reflexivity.
Qed.

Lemma partition_length (self : converter) (n : nat) (rs : list row) :
  length (accepted self rs) + length (rejected_from self n rs) = length rs.
Proof.
  revert n; induction rs as [|r rs IH]; intros n; [reflexivity|].
  rewrite accepted_cons; cbn [rejected_from]; destruct (verdict self r);
    simpl; specialize (IH (S n)); lia.
Qed.

(** A rejected row carries its place in the batch, counted from [n]. *)
Lemma rejected_from_numbered (self : converter) (rs : list row) :
  forall (n : nat) (rej : rejected),
    In rej (rejected_from self n rs) ->
    exists i, rs !! i = Some (data rej) /\ row_number rej = n + i /\
              verdict self (data rej) = None.
Proof.
  induction rs as [|r rs IH]; intros n rej; cbn [rejected_from];
    [intros []|].
  destruct (verdict self r) eqn:Hv.
  - intros H; destruct (IH _ _ H) as (i & Hi & Hn & Hr).
    exists (S i); repeat split; auto; lia.
  - intros [<-|H].
    + exists 0; repeat split; auto; simpl; lia.
    + destruct (IH _ _ H) as (i & Hi & Hn & Hr).
      exists (S i); repeat split; auto; lia.
Qed.

(** C3.  Whatever the row, the validator returns - a contact or [None] -
    and raises nothing, and it leaves the files alone; hence the loop over a
    batch returns too, having filed every row of the batch under the
    accepted or under the rejected ones. *)
Theorem validate_contact_never_raises (self : converter) (r : row) (w : world) :
  (exists o w', validate_contact self r w = (Ok o, w') /\ fs w' = fs w) /\
  (forall rs n vs js,
     exists result w',
       read_rows self n (r :: rs) vs js w = (Ok result, w') /\
       length (fst result) + length (snd result)
       = length vs + length js + length (r :: rs)).
Proof.
  split.
  - destruct (validate_contact_verdict self r) as (evs & H).
    exists (verdict self r), (add_events w evs); now rewrite H.
  - intros rs n vs js; rewrite read_rows_spec.
    eexists _, _; split; [reflexivity|]; cbn [fst snd].
    rewrite !length_app.
    pose proof (partition_length self n (r :: rs)); lia.
Qed.

(** A row the validator chokes on does not stop the batch. *)
Example read_rows_long_row :
  fst (read_rows default_converter 2
         [Samples.john_row; Samples.long_row; Samples.john_row] [] []
         initial_world)
  = Ok ([Samples.john; Samples.john],
        [{| row_number := 3; data := Samples.long_row |}]).
Proof. reflexivity. Qed.

(** C5.  When the file opens and the reader does not fail, the batch reader
    returns the accepted contacts and the rejected rows of the file, both in
    input order, the rejected ones numbered from 2; each row went through
    the validator once, in order.  The two rows of the scenario give one
    contact and one rejected row, numbered 3. *)
Theorem read_contacts_partition (L : libs) (self : converter) (csv_file content : str)
    (w : world) :
  fs w !! csv_file = Some content ->
  failure (csv_DictReader L content) = None ->
  (exists w',
     read_contacts L self csv_file w =
       (Ok (accepted self (rows (csv_DictReader L content)),
            rejected_from self 2 (rows (csv_DictReader L content))), w') /\
     fs w' = fs w /\
     exists header summary,
       w' = add_events
              (validated_each self (rows (csv_DictReader L content))
                 (add_events w header))
              summary) /\
  accepted default_converter Samples.two_rows = [Samples.john] /\
  rejected_from default_converter 2 Samples.two_rows
  = [{| row_number := 3; data := Samples.nameless_row |}].
Proof.
  intros Hfile Hfail; split; [|split; reflexivity].
  cbv [read_contacts try_except bind open_read get_fs ret emit raise].
  rewrite Hfile, read_rows_spec, Hfail; cbn [app].
  eexists; split; [reflexivity|]; split.
  - cbn [fs]; now rewrite validated_each_fs.
  - eexists [_], [_; _].
    etransitivity; [|apply (add_events_app _ [_] [_])]; reflexivity.
Qed.

Lemma read_contacts_partition_witness :
  fst (read_contacts Samples.sample_libs default_converter "/data/contacts.csv"
         Samples.world_two_rows)
  = Ok ([Samples.john], [{| row_number := 3; data := Samples.nameless_row |}]).
Proof.
  destruct (proj1 (read_contacts_partition Samples.sample_libs default_converter
                     "/data/contacts.csv" Samples.two_rows_text
                     Samples.world_two_rows eq_refl eq_refl))
    as (w' & E & _).
  rewrite E; reflexivity.
Defined.

End BatchReader.

(** ** Card Renderer: [create_vcard_entry] *)

Module Renderer.
Import Py Convert2 Spec PyFacts.

Lemma lines_of_not_nil (s : str) : lines_of s <> [].
Proof.
  induction s as [|c s IH]; simpl; [discriminate|].
  destruct (is_nl c); [discriminate|].
  destruct (lines_of s); [congruence|discriminate].
Qed.

(** A line break separates the lines before it from the lines after it. *)
Lemma lines_of_app_nl (a b : str) :
  lines_of (a ++ nl ++ b) = lines_of a ++ lines_of b.
Proof.
  induction a as [|c a IH]; [reflexivity|].
  cbn [app lines_of]; fold (nl ++ b); rewrite IH.
  destruct (is_nl c); [reflexivity|].
  pose proof (lines_of_not_nil a).
  destruct (lines_of a); [congruence|reflexivity].
Qed.

Lemma lines_of_single_line (s : str) : single_line s = true -> lines_of s = [s].
Proof.
  unfold single_line; induction s as [|c s IH]; simpl; [reflexivity|].
  intros H; apply andb_true_iff in H as [Hc Hs].
  apply negb_true_iff in Hc; rewrite Hc, (IH Hs); reflexivity.
Qed.

Lemma single_line_app (a b : str) :
  single_line (a ++ b) = single_line a && single_line b.
Proof. apply forallb_app. Qed.

Lemma lines_of_unlines (ls : list str) (rest : str) :
  forallb single_line ls = true ->
  lines_of (unlines ls ++ rest) = ls ++ lines_of rest.
Proof.
  unfold unlines; induction ls as [|l ls IH]; simpl; [reflexivity|].
  intros H; apply andb_true_iff in H as [Hl Hls].
  rewrite <- !app_assoc, lines_of_app_nl, (lines_of_single_line l Hl), (IH Hls).
  reflexivity.
Qed.

(** The text of a card, whatever the contact. *)
Lemma create_vcard_entry_text (self : converter) (c : Contact) :
  create_vcard_entry self c =
  card_head self c ++ nl ++ phone_line self c ++ nl ++
  unlines (optional_lines self c) ++ "END:VCARD".
Proof.
  unfold create_vcard_entry, card_head, phone_line, optional_lines, unlines, v3,
    template_V2_1, template_V3_0.
  destruct (parse_name (name c)) as [[firstname lastname] fullname].
  destruct (vcard_version self); cbn [version_eqb];
    destruct (truthy (email c)), (truthy (organization c)), (truthy (title c)),
      (truthy (address c)), (truthy (notes c));
    cbn [app map concat];
    repeat (progress (rewrite <- ?app_assoc; cbn [app])); reflexivity.
Qed.

Lemma optional_lines_single (self : converter) (c : Contact) :
  single_line_opt (email c) = true ->
  single_line_opt (organization c) = true ->
  single_line_opt (title c) = true ->
  single_line_opt (address c) = true ->
  single_line_opt (notes c) = true ->
  forallb single_line (optional_lines self c) = true.
Proof.
  unfold single_line_opt, optional_lines; intros He Ho Ht Ha Hn.
  rewrite !forallb_app.
  destruct (v3 self), (truthy (email c)), (truthy (organization c)),
    (truthy (title c)), (truthy (address c)), (truthy (notes c));
    cbn [forallb andb]; rewrite ?single_line_app, ?He, ?Ho, ?Ht, ?Ha, ?Hn;
    reflexivity.
Qed.

Lemma optional_lines_not_blank (self : converter) (c : Contact) :
  Forall (fun l => l <> []) (phone_line self c :: optional_lines self c).
Proof.
  unfold optional_lines, phone_line; constructor.
  - destruct (v3 self); discriminate.
  - repeat apply Forall_app_2;
      destruct (v3 self), (truthy (email c)), (truthy (organization c)),
        (truthy (title c)), (truthy (address c)), (truthy (notes c));
      repeat constructor; discriminate.
Qed.

(** C6, as the code has it.  In either dialect a card is its head, the phone
    line, the optional lines and the end marker.  When the phone and the
    optional attributes hold no line break, its lines after the head are
    the phone line, one line for each non-empty optional attribute - email,
    organization, title, address, notes, in this order - and [END:VCARD]
    last, and no line from the phone line on is blank. *)
Theorem create_vcard_entry_lines (self : converter) (c : Contact) :
  single_line (phone c) = true ->
  single_line_opt (email c) = true ->
  single_line_opt (organization c) = true ->
  single_line_opt (title c) = true ->
  single_line_opt (address c) = true ->
  single_line_opt (notes c) = true ->
  lines_of (create_vcard_entry self c) =
    lines_of (card_head self c) ++
    [phone_line self c] ++ optional_lines self c ++ ["END:VCARD"] /\
  Forall (fun l => l <> []) (phone_line self c :: optional_lines self c).
Proof.
  intros Hp He Ho Ht Ha Hn; split; [|apply optional_lines_not_blank].
  rewrite create_vcard_entry_text, lines_of_app_nl, lines_of_app_nl.
  rewrite lines_of_unlines by now apply optional_lines_single.
  rewrite (lines_of_single_line (phone_line self c)); [reflexivity|].
  unfold phone_line; rewrite single_line_app, Hp.
  destruct (v3 self); reflexivity.
Qed.

Lemma create_vcard_entry_lines_witness :
  lines_of (create_vcard_entry default_converter Samples.full_contact) =
  ["BEGIN:VCARD"; "VERSION:3.0"; "N:Lee;Ann;;;"; "FN:Ann Lee";
   "TEL;TYPE=CELL:+91  9123 4567 80";
   "EMAIL;TYPE=INTERNET:ann@example.org"; "ORG:Acme";
   "ADR;TYPE=HOME:;;1 Main St;;;;"; "END:VCARD"].
Proof.
  apply (proj1 (create_vcard_entry_lines default_converter Samples.full_contact
                  eq_refl eq_refl eq_refl eq_refl eq_refl eq_refl)).
Defined.

(** C6, as the specification states it, fails: a note of two lines, which
    the validator accepts, is emitted as two lines. *)
Lemma create_vcard_entry_counterexample :
  fst (validate_contact default_converter Samples.noted_row initial_world)
    = Ok (Some Samples.noted_contact) /\
  optional_lines default_converter Samples.noted_contact
    = ["NOTE:" ++ Samples.two_line_note] /\
  lines_of (create_vcard_entry default_converter Samples.noted_contact) =
    ["BEGIN:VCARD"; "VERSION:3.0"; "N:Lee;Ann;;;"; "FN:Ann Lee";
     "TEL;TYPE=CELL:+91  9123 4567 80"; "NOTE:call"; "back"; "END:VCARD"] /\
  lines_of (create_vcard_entry default_converter Samples.noted_contact) <>
    lines_of (card_head default_converter Samples.noted_contact) ++
    [phone_line default_converter Samples.noted_contact] ++
    optional_lines default_converter Samples.noted_contact ++ ["END:VCARD"].
Proof.
  repeat split; try reflexivity.
  vm_compute; discriminate.
Qed.

End Renderer.

(** ** Conversion Orchestrator: [convert_to_vcard] *)

Module Orchestrator.
Import Py Convert2 Spec PyFacts Validator BatchReader.
Local Open Scope py_scope.

(** A backup never has the path of the file it copies. *)
Lemma backup_path_differs (p : path) (stamp : str) :
  path_str (backup_path_of p stamp) <> path_str p.
Proof.
  unfold path_str, path_name, backup_path_of; cbn [parent stem suffix].
  intros E; apply (f_equal (@length ascii)) in E.
  rewrite !length_app in E; simpl in E; lia.
Qed.

(** [backup_file] returns and leaves the file it copies as it is. *)
Lemma backup_file_spec (L : libs) (self : converter) (p : path) (w : world) :
  exists w', backup_file L self p w = (Ok tt, w') /\
             fs w' !! path_str p = fs w !! path_str p.
Proof.
  cbv [backup_file bind get_fs ret now put_file emit].
  destruct (fs w !! path_str p) as [content|] eqn:E; [|eauto].
  destruct (backup self); [|eauto].
  eexists; split; [reflexivity|]; cbn [fs].
  rewrite lookup_insert_ne; [exact E|apply backup_path_differs].
Qed.

(** [read_contacts] writes no file, whether it returns or raises. *)
Lemma read_contacts_fs (L : libs) (self : converter) (csv_file : str) (w : world) :
  fs (snd (read_contacts L self csv_file w)) = fs w.
Proof.
  cbv [read_contacts try_except bind open_read get_fs ret emit raise].
  destruct (fs w !! csv_file) as [content|]; [|reflexivity].
  rewrite read_rows_spec.
  destruct (failure (csv_DictReader L content)); cbn [snd fs];
    now rewrite validated_each_fs.
Qed.

(** What the first part of the conversion comes to. *)
Lemma locate_files_spec (L : libs) (self : converter) (csv_file : str)
    (output_file : option path) (w : world) :
  match fs w !! resolve L csv_file with
  | None =>
      exists msg w', locate_files L self csv_file output_file w
                     = (Raise (FileNotFoundError msg), w') /\ fs w' = fs w
  | Some _ =>
      exists w', locate_files L self csv_file output_file w
                 = (Ok (resolve L csv_file, chosen_output L self output_file w), w') /\
                 fs w' !! path_str (chosen_output L self output_file w)
                 = fs w !! path_str (chosen_output L self output_file w)
  end.
Proof.
  unfold locate_files.
  cbv [bind emit get_fs raise preview_csv]; cbn [fs clock emitted].
  destruct (fs w !! resolve L csv_file) as [content|]; [|eauto].
  destruct output_file as [p|]; cbv [ret now chosen_output]; cbn [fs clock emitted].
  - match goal with |- context [backup_file L self p ?w0] =>
      destruct (backup_file_spec L self p w0) as (w' & -> & Hfs) end.
    eauto.
  - match goal with |- context [backup_file L self ?p ?w0] =>
      destruct (backup_file_spec L self p w0) as (w' & -> & Hfs) end.
    eauto.
Qed.

(** Once contacts were read, the rest of the conversion returns. *)
Lemma export_error_report_returns (L : libs) (self : converter)
    (invalid : list rejected) (w : world) :
  exists w', export_error_report L self invalid w = (Ok tt, w').
Proof.
  destruct invalid; cbv [export_error_report bind ret now put_file emit]; eauto.
Qed.

(** C9.  Without the input file the conversion raises [FileNotFoundError]
    and no file changes.  When the batch reader returns no contact, the
    conversion raises the "no valid contacts" [ValueError] and the output
    file is as before.  Whatever makes the conversion fail, the output file
    is neither created nor modified. *)
Theorem convert_to_vcard_fatal (L : libs) (self : converter) (csv_file : str)
    (output_file : option path) (w : world) :
  (fs w !! resolve L csv_file = None ->
   exists msg w',
     convert_to_vcard L self csv_file output_file w
     = (Raise (FileNotFoundError msg), w') /\
     fs w' = fs w) /\
  (forall input out w1 invalid w2,
     locate_files L self csv_file output_file w = (Ok (input, out), w1) ->
     read_contacts L self input w1 = (Ok ([], invalid), w2) ->
     exists w',
       convert_to_vcard L self csv_file output_file w
       = (Raise (ValueError "No valid contacts found in the CSV file"), w') /\
       fs w' !! path_str out = fs w !! path_str out) /\
  (forall e w',
     convert_to_vcard L self csv_file output_file w = (Raise e, w') ->
     fs w' !! path_str (chosen_output L self output_file w)
     = fs w !! path_str (chosen_output L self output_file w)).
Proof.
  pose proof (locate_files_spec L self csv_file output_file w) as Hloc.
  split; [|split].
  - intros Hin; rewrite Hin in Hloc; destruct Hloc as (msg & w' & E & Hfs).
    unfold convert_to_vcard, try_except, bind at 1; rewrite E.
    cbv [bind emit raise]; cbn [fs]; eauto.
  - intros input out w1 invalid w2 E1 E2.
    pose proof (read_contacts_fs L self input w1) as Hfs; rewrite E2 in Hfs.
    unfold convert_to_vcard, try_except, bind at 1; rewrite E1.
    unfold bind at 1; rewrite E2.
    cbv [bind emit raise]; cbn [fs snd] in *.
    eexists; split; [reflexivity|]; cbn [fs]; rewrite Hfs.
    destruct (fs w !! resolve L csv_file).
    + destruct Hloc as (w0 & E & H0); rewrite E in E1.
      injection E1 as _ <- <-; exact H0.
    + destruct Hloc as (msg & w0 & E & _); rewrite E in E1; discriminate.
  - intros e w'.
    destruct (fs w !! resolve L csv_file).
    + destruct Hloc as (w0 & E & H0).
      unfold convert_to_vcard, try_except, bind at 1; rewrite E.
      unfold bind at 1.
      pose proof (read_contacts_fs L self (resolve L csv_file) w0) as Hfs.
      destruct (read_contacts L self (resolve L csv_file) w0)
        as [[[contacts invalid]|e1] w2]; cbn [snd] in Hfs.
      * destruct contacts as [|c contacts].
        -- cbv [bind emit raise]; intros H; injection H as _ <-; cbn [fs].
           now rewrite Hfs.
        -- unfold bind at 1, put_file at 1; unfold bind at 1.
           match goal with |- context [export_error_report L self invalid ?w3] =>
             destruct (export_error_report_returns L self invalid w3) as (w4 & ->)
           end.
           cbv [bind emit]; discriminate.
      * cbv [bind emit raise]; intros H; injection H as _ <-; cbn [fs].
        now rewrite Hfs.
    + destruct Hloc as (msg & w0 & E & Hfs).
      unfold convert_to_vcard, try_except, bind at 1; rewrite E.
      cbv [bind emit raise]; intros H; injection H as _ <-; cbn [fs].
      now rewrite Hfs.
Qed.

Lemma convert_to_vcard_fatal_witness :
  (exists msg w',
     convert_to_vcard Samples.sample_libs default_converter "contacts.csv"
       (Some Samples.out_vcf) Samples.world_no_input
     = (Raise (FileNotFoundError msg), w') /\
     fs w' = fs Samples.world_no_input) /\
  (exists w',
     convert_to_vcard Samples.sample_libs default_converter "contacts.csv"
       (Some Samples.out_vcf) Samples.world_no_contact
     = (Raise (ValueError "No valid contacts found in the CSV file"), w') /\
     fs w' !! path_str Samples.out_vcf
     = fs Samples.world_no_contact !! path_str Samples.out_vcf).
Proof.
  split.
  - apply (proj1 (convert_to_vcard_fatal Samples.sample_libs default_converter
                    "contacts.csv" (Some Samples.out_vcf) Samples.world_no_input)).
    reflexivity.
  - eapply (proj1 (proj2 (convert_to_vcard_fatal Samples.sample_libs
                            default_converter "contacts.csv"
                            (Some Samples.out_vcf) Samples.world_no_contact)));
      vm_compute; reflexivity.
Defined.

End Orchestrator.

(** ** More on [clean_phone_number] *)

Module PhoneDigits.
Import Py Convert2 Spec PyFacts PhoneNumber.

Lemma space_not_digit (c : ascii) : is_space c = true -> is_digit c = false.
Proof.
  intros Hs; destruct (is_digit c) eqn:Hd; [|reflexivity].
  apply digit_not_space in Hd; congruence.
Qed.

Lemma digits_app (a b : str) : digits (a ++ b) = digits a ++ digits b.
Proof. apply List.filter_app. Qed.

Lemma digits_rev (s : str) : digits (rev s) = rev (digits s).
Proof.
  unfold digits; induction s as [|c s IH]; [reflexivity|].
  simpl; rewrite List.filter_app, IH; simpl.
  destruct (is_digit c); [reflexivity|now rewrite app_nil_r].
Qed.

Lemma digits_lstrip (s : str) : digits (lstrip s) = digits s.
Proof.
  induction s as [|c s IH]; [reflexivity|]; simpl.
  destruct (is_space c) eqn:Hc; [|reflexivity].
  unfold digits in *; simpl; now rewrite (space_not_digit c Hc).
Qed.

Lemma digits_strip (s : str) : digits (strip s) = digits s.
Proof.
  unfold strip, rstrip.
  now rewrite digits_rev, digits_lstrip, digits_rev, rev_involutive, digits_lstrip.
Qed.

Lemma digits_regroup (k : nat) (s : str) : digits (regroup k s) = digits s.
Proof.
  revert k; induction s as [|c s IH]; intros k; [reflexivity|].
  destruct k; unfold digits in *; simpl; now rewrite IH.
Qed.

Lemma digits_digits (s : str) : digits (digits s) = digits s.
Proof. apply filter_all_digits, digits_all_digits. Qed.

(** The digits of what [clean_phone_number] returns. *)
Lemma digits_of_cleaned (self : converter) (phone r : str) :
  clean_phone_number self phone = Ok r ->
  digits r =
  (if length (digits phone) =? 10 then digits (country_code self) else [])
  ++ digits phone.
Proof.
  rewrite clean_phone_number_unfold.
  destruct (length (digits phone) <? 10); [discriminate|].
  intros E; injection E as <-.
  unfold regroup4; rewrite digits_strip, digits_regroup.
  destruct (length (digits phone) =? 10).
  - rewrite digits_app; f_equal.
    change (digits (" " ++ digits phone)) with (digits (digits phone)).
    apply digits_digits.
  - match goal with |- context [if ?b then _ else _] => destruct b end;
      [change (digits ("+" ++ digits phone)) with (digits (digits phone))|];
      apply digits_digits.
Qed.

(** X1.  Normalising keeps every digit of the input, in order: the result of an
    input with more than 10 digits has the same digits, and the result of
    an input with exactly 10 has those of the country code before them. *)
Theorem clean_phone_number_keeps_digits (self : converter) (phone r : str) :
  clean_phone_number self phone = Ok r ->
  (10 < length (digits phone) -> digits r = digits phone) /\
  (length (digits phone) = 10 ->
   digits r = digits (country_code self) ++ digits phone).
Proof.
  intros E; rewrite (digits_of_cleaned self phone r E); split; intros H.
  - destruct (length (digits phone) =? 10) eqn:E10; [|reflexivity].
    apply Nat.eqb_eq in E10; lia.
  - now rewrite H.
Qed.

Lemma clean_phone_number_keeps_digits_witness :
  digits "+91  9876 5432 10" = digits "+91" ++ digits "(987) 654-3210".
Proof.
  exact (proj2 (clean_phone_number_keeps_digits default_converter
                  "(987) 654-3210" "+91  9876 5432 10" eq_refl) eq_refl).
Defined.

(** X2.  A number with more than 10 digits is normalised once and for all:
    normalising the result again gives the result. *)
Theorem clean_phone_number_stable (self : converter) (phone r : str) :
  10 < length (digits phone) ->
  clean_phone_number self phone = Ok r ->
  clean_phone_number self r = Ok r.
Proof.
  intros Hlen E.
  pose proof (digits_of_cleaned self phone r E) as Hd.
  destruct (length (digits phone) =? 10) eqn:E10;
    [apply Nat.eqb_eq in E10; lia|].
  simpl in Hd.
  rewrite clean_phone_number_unfold in E |- *; rewrite Hd.
  destruct (length (digits phone) <? 10) eqn:E1;
    [apply Nat.ltb_lt in E1; lia|exact E].
Qed.

Lemma clean_phone_number_stable_witness :
  clean_phone_number default_converter "+919 8765 4321 0" = Ok "+919 8765 4321 0".
Proof.
  apply (clean_phone_number_stable default_converter "+91 98765 43210").
  all: vm_compute; try lia; reflexivity.
Defined.

End PhoneDigits.

(** ** More on the validator *)

Module ValidatorProps.
Import Py Convert2 Spec Notions PyFacts PhoneNumber Validator.
Local Open Scope py_scope.

(** *** What stripping and regrouping keep *)

Lemma forallb_rev_true (p : ascii -> bool) (s : str) :
  forallb p s = true -> forallb p (rev s) = true.
Proof.
  rewrite !forallb_forall; intros H x Hx; apply H, in_rev; exact Hx.
Qed.

Lemma forallb_lstrip (p : ascii -> bool) (s : str) :
  forallb p s = true -> forallb p (lstrip s) = true.
Proof.
  induction s as [|c s IH]; [reflexivity|]; simpl.
  destruct (is_space c); [|trivial].
  intros H; apply andb_true_iff in H as [_ H]; auto.
Qed.

Lemma forallb_strip (p : ascii -> bool) (s : str) :
  forallb p s = true -> forallb p (strip s) = true.
Proof.
  intros H; unfold strip, rstrip.
  now apply forallb_rev_true, forallb_lstrip, forallb_rev_true, forallb_lstrip.
Qed.

Lemma forallb_regroup (p : ascii -> bool) (k : nat) (s : str) :
  p " "%char = true -> forallb p s = true -> forallb p (regroup k s) = true.
Proof.
  intros Hsp; revert k; induction s as [|c s IH]; intros k; [reflexivity|].
  simpl; intros H; apply andb_true_iff in H as [Hc Hs].
  destruct k; simpl; rewrite ?Hsp, Hc; simpl; auto.
Qed.

Lemma forallb_weaken (p q : ascii -> bool) (s : str) :
  (forall c, p c = true -> q c = true) ->
  forallb p s = true -> forallb q s = true.
Proof.
  intros Hpq; rewrite !forallb_forall; auto.
Qed.

Lemma one_of_self (cs : str) : forallb (one_of cs) cs = true.
Proof.
  apply forallb_forall; intros c Hc; unfold one_of.
  apply bool_decide_eq_true, list_elem_of_In; exact Hc.
Qed.

Lemma digit_not_nl (c : ascii) : is_digit c = true -> is_nl c = false.
Proof.
  intros H; unfold is_nl; apply bool_decide_eq_false; intros ->; discriminate H.
Qed.

(** The characters of what [clean_phone_number] returns. *)
Lemma cleaned_chars (self : converter) (phone r : str) (p : ascii -> bool) :
  (forall c, is_digit c = true -> p c = true) ->
  p " "%char = true -> p "+"%char = true ->
  forallb p (country_code self) = true ->
  clean_phone_number self phone = Ok r ->
  forallb p r = true.
Proof.
  intros Hd Hsp Hplus Hcc; rewrite clean_phone_number_unfold.
  destruct (length (digits phone) <? 10); [discriminate|].
  intros E; injection E as <-.
  assert (Hds : forallb p (digits phone) = true).
  { apply (forallb_weaken is_digit); [exact Hd|apply digits_all_digits]. }
  apply forallb_strip, forallb_regroup; [exact Hsp|].
  repeat match goal with |- context [if ?b then _ else _] => destruct b end;
    rewrite ?forallb_app; simpl; rewrite ?Hsp, ?Hplus, ?Hcc, ?Hds; reflexivity.
Qed.

(** X3.  A normalised phone is trimmed and made of digits, spaces, ["+"] and the
    characters of the country code only: nothing else of the raw input gets
    through; it holds a line break only if the country code does. *)
Theorem clean_phone_number_alphabet (self : converter) (phone r : str) :
  clean_phone_number self phone = Ok r ->
  forallb (phone_char self) r = true /\
  strip r = r /\
  (single_line (country_code self) = true -> single_line r = true).
Proof.
  intros E; split; [|split].
  - apply (cleaned_chars self phone r); auto.
    + intros c Hc; unfold phone_char; now rewrite Hc.
    + unfold phone_char.
      apply (forallb_weaken (one_of (country_code self)));
        [intros c Hc; rewrite Hc; now rewrite orb_true_r|apply one_of_self].
  - rewrite clean_phone_number_unfold in E.
    destruct (length (digits phone) <? 10); [discriminate|].
    injection E as <-; apply strip_idempotent.
  - intros Hcc; apply (cleaned_chars self phone r); auto.
    intros c Hc; now rewrite (digit_not_nl c Hc).
Qed.

Lemma clean_phone_number_alphabet_witness :
  forallb (phone_char default_converter) "+91  9876 5432 10" = true /\
  single_line "+91  9876 5432 10" = true.
Proof.
  pose proof (clean_phone_number_alphabet default_converter "98765-43210 (home)"
                "+91  9876 5432 10" eq_refl) as H.
  split; [exact (proj1 H)|exact (proj2 (proj2 H) eq_refl)].
Defined.

(** *** The lookups decide *)

(** The validator in terms of its body. *)
Lemma verdict_body (self : converter) (r : row) :
  verdict self r =
  match fst (validate_contact_body self r initial_world) with
  | Ok c => Some c
  | Raise _ => None
  end.
Proof.
  unfold verdict, validate_contact, try_except, bind.
  destruct (validate_contact_body self r initial_world) as [[c|e] w];
    reflexivity.
Qed.

Lemma verdict_some (self : converter) (r : row) (c : Contact) :
  verdict self r = Some c ->
  exists w, validate_contact_body self r initial_world = (Ok c, w).
Proof.
  rewrite verdict_body.
  destruct (validate_contact_body self r initial_world) as [[c0|e] w];
    simpl; [|discriminate].
  intros E; injection E as ->; eauto.
Qed.

Lemma verdict_of_returned (self : converter) (r : row) (w w' : world)
    (o : option Contact) :
  validate_contact self r w = (Ok o, w') -> verdict self r = o.
Proof.
  destruct (validate_contact_verdict self r) as (evs & H).
  rewrite H; intros E; now injection E.
Qed.

(** Two rows that answer every lookup alike are treated alike. *)
Lemma body_ext (self : converter) (r r' : row) (w : world) :
  (forall names, In names lookups -> next_field names r = next_field names r') ->
  validate_contact_body self r w = validate_contact_body self r' w.
Proof.
  intros H; unfold validate_contact_body.
  assert (Hin : forall names, In names lookups ->
                  next_field names r = next_field names r') by exact H.
  rewrite (Hin ["name"]), (Hin ["phone"]), (Hin ["email"]),
    (Hin ["organization"; "org"]), (Hin ["title"]), (Hin ["address"]),
    (Hin ["notes"; "note"]);
    first [reflexivity | unfold lookups, optional_lookups; simpl; tauto].
Qed.

Lemma verdict_ext (self : converter) (r r' : row) :
  (forall names, In names lookups -> next_field names r = next_field names r') ->
  verdict self r = verdict self r'.
Proof.
  intros H; rewrite !verdict_body, (body_ext self r r' _ H); reflexivity.
Qed.

(** What the lookups returned when the body built a contact. *)
Lemma body_ok_lookups (self : converter) (r : row) (w w' : world) (c : Contact) :
  validate_contact_body self r w = (Ok c, w') ->
  next_field ["name"] r = Ok (Some (name c)) /\
  (exists p, next_field ["phone"] r = Ok (Some p) /\
             clean_phone_number self p = Ok (phone c)) /\
  (exists em, next_field ["email"] r = Ok em /\
              fst (validate_email em w) = Ok (email c)) /\
  next_field ["organization"; "org"] r = Ok (organization c) /\
  next_field ["title"] r = Ok (title c) /\
  next_field ["address"] r = Ok (address c) /\
  next_field ["notes"; "note"] r = Ok (notes c) /\
  groups c = None.
Proof.
  unfold validate_contact_body, bind, lift.
  destruct (next_field ["name"] r) as [n|e]; [|discriminate].
  destruct (next_field ["phone"] r) as [p|e]; [|discriminate].
  destruct n as [[|a n]|]; try discriminate;
    destruct p as [[|b p]|]; try discriminate.
  destruct (clean_phone_number self (b :: p)) as [cp|e] eqn:Ecp; [|discriminate].
  destruct (next_field ["email"] r) as [em|e]; [|discriminate].
  destruct (validate_email em w) as [[em'|e] w1] eqn:Eem; [|discriminate].
  destruct (next_field ["organization"; "org"] r) as [org|e]; [|discriminate].
  destruct (next_field ["title"] r) as [ti|e]; [|discriminate].
  destruct (next_field ["address"] r) as [ad|e]; [|discriminate].
  destruct (next_field ["notes"; "note"] r) as [no|e]; [|discriminate].
  unfold ret; intros E; inversion E; subst; simpl.
  split; [reflexivity|]. split; [eauto|].
  split; [exists em; split; [reflexivity|now rewrite Eem]|].
  repeat split.
Qed.

Lemma body_ok_all_lookups (self : converter) (r : row) (w w' : world)
    (c : Contact) (names : list str) :
  validate_contact_body self r w = (Ok c, w') ->
  In names lookups -> exists v, next_field names r = Ok v.
Proof.
  intros E Hin; apply body_ok_lookups in E
    as (Hn & (p & Hp & _) & (em & He & _) & Ho & Ht & Ha & Hno & _).
  unfold lookups, optional_lookups in Hin; simpl in Hin.
  destruct Hin as [<-|[<-|[<-|[<-|[<-|[<-|[<-|[]]]]]]]]; eauto.
Qed.

Lemma lookup_raise_verdict (self : converter) (r : row) (names : list str)
    (e : exn) :
  In names lookups -> next_field names r = Raise e -> verdict self r = None.
Proof.
  intros Hin Hraise.
  destruct (verdict self r) as [c|] eqn:Hv; [|reflexivity].
  apply verdict_some in Hv as (w & Hbody).
  destruct (body_ok_all_lookups self r _ _ c names Hbody Hin) as (v & Hok).
  congruence.
Qed.

(** X4.  A lookup that raises costs the row: a cell that is not a string under a
    header the validator looks for, or a [None] key met while looking,
    makes the validator reject the row, whatever its name and phone. *)
Theorem failed_lookup_rejects (self : converter) (r : row) (names : list str)
    (e : exn) (w : world) :
  In names lookups ->
  next_field names r = Raise e ->
  fst (validate_contact self r w) = Ok None.
Proof.
  intros Hin Hraise.
  destruct (validate_contact_verdict self r) as (evs & H); rewrite H.
  simpl; now rewrite (lookup_raise_verdict self r names e Hin Hraise).
Qed.

Lemma failed_lookup_rejects_witness :
  fst (validate_contact default_converter MoreSamples.short_row initial_world)
  = Ok None.
Proof.
  apply (failed_lookup_rejects default_converter MoreSamples.short_row ["email"]
           (AttributeError "'NoneType' object has no attribute 'strip'")).
  - unfold lookups, optional_lookups; simpl; tauto.
  - reflexivity.
Defined.

(** *** What a built contact holds *)

Lemma validate_contact_some (self : converter) (r : row) (w w' : world)
    (c : Contact) :
  validate_contact self r w = (Ok (Some c), w') ->
  validate_contact_body self r w = (Ok c, w').
Proof.
  unfold validate_contact, try_except, bind.
  destruct (validate_contact_body self r w) as [[c0|e] w0]; unfold ret, emit.
  - intros E; now inversion E.
  - discriminate.
Qed.

Lemma next_field_field (names : list str) (r : row) (v : option str) :
  next_field names r = Ok v -> field names r = v.
Proof. unfold field; now intros ->. Qed.

Lemma email_pattern_not_nil (s : str) : email_pattern s -> s <> [].
Proof.
  intros (l & d & t & -> & Hl & _) E.
  apply app_eq_nil in E as [E _]; contradiction.
Qed.

(** The email [validate_email] keeps, for a value that is already trimmed. *)
Lemma validate_email_kept (em o : option str) (w : world) :
  (forall v, em = Some v -> strip v = v) ->
  fst (validate_email em w) = Ok o ->
  forall e, o = Some e <-> em = Some e /\ email_pattern e.
Proof.
  intros Hstrip; destruct em as [[|x v]|]; simpl.
  - intros E; injection E as <-; intros e; split; [discriminate|].
    intros [E He]; injection E as <-.
    now apply email_pattern_not_nil in He.
  - specialize (Hstrip _ eq_refl).
    pose proof (EmailAddress.fullmatch_email_strip (x :: v)) as Hm.
    rewrite Hstrip in *.
    destruct (Re.fullmatch email_regex (x :: v)); simpl;
      intros E; injection E as <-; intros e; split.
    + intros E; injection E as <-; split; [reflexivity|now apply Hm].
    + now intros [-> _].
    + discriminate.
    + intros [E He]; injection E as <-; apply Hm in He; discriminate.
  - intros E; injection E as <-; intros e; split; [discriminate|].
    now intros [E _].
Qed.

(** X5.  The optional attributes of a contact the validator builds are the
    trimmed values of the row: organization, title, address and notes as
    found (an empty cell gives an empty attribute), and the email exactly
    when the cell holds a well-formed address; [groups] is never set. *)
Theorem built_contact_attributes (self : converter) (r : row) (w w' : world)
    (c : Contact) :
  validate_contact self r w = (Ok (Some c), w') ->
  organization c = field ["organization"; "org"] r /\
  title c = field ["title"] r /\
  address c = field ["address"] r /\
  notes c = field ["notes"; "note"] r /\
  (forall e, email c = Some e <-> field ["email"] r = Some e /\ email_pattern e) /\
  (forall v, In (Some v) [email c; organization c; title c; address c; notes c] ->
             strip v = v) /\
  groups c = None.
Proof.
  intros E; apply validate_contact_some, body_ok_lookups in E
    as (_ & _ & (em & He & Hem) & Ho & Ht & Ha & Hn & Hg).
  assert (Hemail : forall e, email c = Some e <->
                             field ["email"] r = Some e /\ email_pattern e).
  { rewrite (next_field_field _ _ _ He).
    apply (validate_email_kept em (email c) w); [|exact Hem].
    intros v ->; exact (next_field_stripped _ _ _ He). }
  rewrite (next_field_field _ _ _ Ho), (next_field_field _ _ _ Ht),
    (next_field_field _ _ _ Ha), (next_field_field _ _ _ Hn).
  repeat split; try apply Hemail; auto.
  intros v Hin; simpl in Hin.
  destruct Hin as [H|[H|[H|[H|[H|[]]]]]].
  - apply Hemail in H as [H _].
    rewrite (next_field_field _ _ _ He) in H; subst em.
    exact (next_field_stripped _ _ _ He).
  - rewrite H in Ho; exact (next_field_stripped _ _ _ Ho).
  - rewrite H in Ht; exact (next_field_stripped _ _ _ Ht).
  - rewrite H in Ha; exact (next_field_stripped _ _ _ Ha).
  - rewrite H in Hn; exact (next_field_stripped _ _ _ Hn).
Qed.

Lemma built_contact_attributes_witness :
  organization MoreSamples.complete_contact = Some "Acme" /\
  title MoreSamples.complete_contact = Some "" /\
  field ["email"] MoreSamples.complete_row = Some "ann@example.org".
Proof.
  pose proof (built_contact_attributes default_converter MoreSamples.complete_row
                initial_world initial_world MoreSamples.complete_contact eq_refl)
    as (Ho & Ht & _ & _ & He & _).
  split; [exact Ho|]; split; [exact Ht|].
  exact (proj1 (proj1 (He "ann@example.org") eq_refl)).
Defined.

(** *** Line breaks *)

Lemma next_field_single_line (names : list str) (r : row) (v : str) :
  row_single_line r = true ->
  next_field names r = Ok (Some v) -> single_line v = true.
Proof.
  unfold row_single_line; induction r as [|[[k|] x] r IH]; simpl;
    try discriminate.
  intros H; apply andb_true_iff in H as [Hx Hr].
  destruct (bool_decide (lower (strip k) ∈ names)); [|now apply IH].
  destruct x; try discriminate.
  intros E; injection E as <-; now apply forallb_strip.
Qed.

(** X6.  The validator hands the renderer what it can print line by line: when
    no cell of the row and not the country code holds a line break, neither
    do the phone and the optional attributes of the contact. *)
Theorem built_contact_single_line (self : converter) (r : row) (w w' : world)
    (c : Contact) :
  row_single_line r = true ->
  single_line (country_code self) = true ->
  validate_contact self r w = (Ok (Some c), w') ->
  single_line (phone c) = true /\
  single_line_opt (email c) = true /\
  single_line_opt (organization c) = true /\
  single_line_opt (title c) = true /\
  single_line_opt (address c) = true /\
  single_line_opt (notes c) = true.
Proof.
  intros Hr Hcc E; apply validate_contact_some, body_ok_lookups in E
    as (_ & (p & _ & Hp) & (em & He & Hem) & Ho & Ht & Ha & Hn & _).
  assert (Hopt : forall names o, next_field names r = Ok o ->
                                 single_line_opt o = true).
  { intros names [v|] H; [|reflexivity].
    exact (next_field_single_line names r v Hr H). }
  split; [|split; [|repeat split; eauto]].
  - apply (cleaned_chars self p (phone c) (fun c => negb (is_nl c))); auto.
    intros x Hx; now rewrite (digit_not_nl x Hx).
  - destruct (email c) as [e|] eqn:Ee; [|reflexivity].
    assert (H : em = Some e /\ email_pattern e).
    { apply (validate_email_kept em (Some e) w); [|exact Hem|reflexivity].
      intros v ->; exact (next_field_stripped _ _ _ He). }
    destruct H as [-> _]; exact (Hopt _ _ He).
Qed.

Lemma built_contact_single_line_witness :
  single_line (phone MoreSamples.complete_contact) = true /\
  single_line_opt (address MoreSamples.complete_contact) = true.
Proof.
  pose proof (built_contact_single_line default_converter MoreSamples.complete_row
                initial_world initial_world MoreSamples.complete_contact
                eq_refl eq_refl eq_refl) as (Hp & _ & _ & _ & Ha & _).
  split; [exact Hp|exact Ha].
Defined.

End ValidatorProps.

(** ** How the validator reads the headers *)

Module Headers.
Import Py Convert2 Spec Notions PyFacts Validator ValidatorProps.

Lemma next_field_same_columns (names : list str) (r r' : row) :
  same_columns r r' -> next_field names r = next_field names r'.
Proof.
  induction 1 as [|[k v] [k' v'] r r' [Hk Hv] _ IH]; [reflexivity|].
  simpl in Hk, Hv; subst v'.
  destruct k as [k|], k' as [k'|]; simpl in Hk; try discriminate;
    [|reflexivity].
  injection Hk as Hk; cbn [next_field].
  change (lower (strip k)) with (normal_key k).
  change (lower (strip k')) with (normal_key k').
  now rewrite Hk, IH.
Qed.

(** X7.  Headers are compared without regard to case and surrounding whitespace:
    two rows with the same values under headers that differ in these only
    get the same verdict. *)
Theorem headers_case_and_space (self : converter) (r r' : row) :
  same_columns r r' -> verdict self r = verdict self r'.
Proof.
  intros H; apply verdict_ext; intros names _.
  now apply next_field_same_columns.
Qed.

Lemma headers_case_and_space_witness :
  verdict default_converter MoreSamples.shouting_row = Some Samples.john.
Proof.
  refine (eq_trans (eq_sym (headers_case_and_space default_converter
                              Samples.john_row MoreSamples.shouting_row _))
                   eq_refl).
  repeat constructor.
Defined.

Lemma next_field_skip (names : list str) (r1 r2 : row) (k : str) (v : cell) :
  normal_key k ∉ names ->
  next_field names (r1 ++ (Some k, v) :: r2) = next_field names (r1 ++ r2).
Proof.
  intros Hk; induction r1 as [|[[k1|] v1] r1 IH]; simpl.
  - change (lower (strip k)) with (normal_key k).
    now rewrite bool_decide_eq_false_2.
  - now rewrite IH.
  - reflexivity.
Qed.

Lemma lookups_known (names : list str) (k : str) :
  In names lookups -> k ∈ names -> k ∈ known_headers.
Proof.
  unfold lookups, optional_lookups, known_headers; simpl.
  intros [<-|[<-|[<-|[<-|[<-|[<-|[<-|[]]]]]]]];
    rewrite !elem_of_cons, !elem_of_nil; tauto.
Qed.

(** X8.  A column under a header the validator does not know is ignored,
    wherever it stands and whatever it holds. *)
Theorem unknown_column_ignored (self : converter) (r1 r2 : row) (k : str)
    (v : cell) :
  normal_key k ∉ known_headers ->
  verdict self (r1 ++ (Some k, v) :: r2) = verdict self (r1 ++ r2).
Proof.
  intros Hk; apply verdict_ext; intros names Hin.
  apply next_field_skip; intros H; apply Hk.
  exact (lookups_known names _ Hin H).
Qed.

Lemma unknown_column_ignored_witness :
  verdict default_converter MoreSamples.nickname_row = Some Samples.john.
Proof.
  refine (eq_trans (unknown_column_ignored default_converter
                      [(Some "name", CStr "John Smith")]
                      [(Some "phone", CStr "9876543210")] "nickname" (CStr "Jo") _)
                   eq_refl).
  intros H; apply list_elem_of_In in H; vm_compute in H.
  intuition discriminate.
Defined.

(** *** Lines longer than the header *)

Lemma next_field_surplus (names : list str) (r : row) (v : cell) :
  well_typed r = true ->
  next_field names (r ++ [(None, v)]) =
  match field names r with
  | Some x => Ok (Some x)
  | None => Raise (AttributeError "'NoneType' object has no attribute 'strip'")
  end.
Proof.
  unfold field; induction r as [|[[k|] x] r IH]; simpl; try discriminate;
    [reflexivity|].
  destruct x; try discriminate; intros H.
  destruct (bool_decide (lower (strip k) ∈ names)); [reflexivity|auto].
Qed.

Lemma missing_required_verdict (self : converter) (r : row) (names : list str) :
  names = ["name"] \/ names = ["phone"] ->
  well_typed r = true -> field names r = None -> verdict self r = None.
Proof.
  intros Hnames Hwt Hf.
  destruct (verdict self r) as [c|] eqn:Hv; [|reflexivity].
  apply verdict_some in Hv as (w & Hbody).
  apply body_ok_lookups in Hbody as (Hn & (p & Hp & _) & _).
  pose proof (next_field_well_typed names r Hwt) as H; rewrite Hf in H.
  destruct Hnames as [->| ->]; congruence.
Qed.

(** X9.  A line with more fields than the header - its surplus sits under the
    key [None] - is accepted only when the row has all five optional
    columns; otherwise a lookup runs into the [None] key and the row is
    rejected, however good its name and phone.  With all five present the
    surplus changes nothing. *)
Theorem surplus_fields_row (self : converter) (r : row) (v : cell) :
  well_typed r = true ->
  verdict self (r ++ [(None, v)]) =
  if forallb (fun names => is_some (field names r)) optional_lookups
  then verdict self r
  else None.
Proof.
  intros Hwt.
  assert (Hmiss : forall names, In names lookups -> field names r = None ->
                                verdict self (r ++ [(None, v)]) = None).
  { intros names Hin Hf.
    apply (lookup_raise_verdict self _ names
             (AttributeError "'NoneType' object has no attribute 'strip'") Hin).
    now rewrite (next_field_surplus names r v Hwt), Hf. }
  assert (Hopt : forall names, In names optional_lookups -> In names lookups).
  { intros names H; right; right; exact H. }
  unfold optional_lookups in *; cbn [forallb].
  destruct (field ["email"] r) eqn:He;
    [|apply (Hmiss ["email"]); [apply Hopt; simpl; tauto|exact He]].
  destruct (field ["organization"; "org"] r) eqn:Ho;
    [|apply (Hmiss ["organization"; "org"]); [apply Hopt; simpl; tauto|exact Ho]].
  destruct (field ["title"] r) eqn:Ht;
    [|apply (Hmiss ["title"]); [apply Hopt; simpl; tauto|exact Ht]].
  destruct (field ["address"] r) eqn:Ha;
    [|apply (Hmiss ["address"]); [apply Hopt; simpl; tauto|exact Ha]].
  destruct (field ["notes"; "note"] r) eqn:Hn;
    [|apply (Hmiss ["notes"; "note"]); [apply Hopt; simpl; tauto|exact Hn]].
  cbn [is_some andb].
  destruct (field ["name"] r) eqn:Hname.
  2:{ rewrite (missing_required_verdict self r ["name"]); auto.
      apply (Hmiss ["name"]); [left; reflexivity|exact Hname]. }
  destruct (field ["phone"] r) eqn:Hphone.
  2:{ rewrite (missing_required_verdict self r ["phone"]); auto.
      apply (Hmiss ["phone"]); [right; left; reflexivity|exact Hphone]. }
  apply verdict_ext; intros names Hin.
  rewrite (next_field_surplus names r v Hwt), (next_field_well_typed names r Hwt).
  simpl in Hin.
  destruct Hin as [<-|[<-|[<-|[<-|[<-|[<-|[<-|[]]]]]]]];
    rewrite ?Hname, ?Hphone, ?He, ?Ho, ?Ht, ?Ha, ?Hn; reflexivity.
Qed.

Lemma surplus_fields_row_witness :
  verdict default_converter Samples.long_row = None /\
  verdict default_converter (MoreSamples.complete_row ++ [(None, CList ["x"])])
  = Some MoreSamples.complete_contact.
Proof.
  split.
  - exact (surplus_fields_row default_converter
             [(Some "name", CStr "Ann Lee"); (Some "phone", CStr "9123456780")]
             (CList ["extra"]) eq_refl).
  - exact (surplus_fields_row default_converter MoreSamples.complete_row
             (CList ["x"]) eq_refl).
Defined.

End Headers.

(** ** More on [parse_name] *)

Module NameProps.
Import Py Convert2 Spec PyFacts NameParser.

Lemma all_space_stripped_nil (s : str) :
  all_space s = true -> strip s = s -> s = [].
Proof.
  intros Hs Hst; destruct s as [|c s]; [reflexivity|].
  pose proof (strip_head_not_space (c :: s) c s Hst) as Hc.
  unfold all_space in Hs; simpl in Hs; rewrite Hc in Hs; discriminate.
Qed.

Lemma all_space_end_stripped_nil (a s : str) :
  all_space s = true -> strip (a ++ s) = a ++ s -> s = [].
Proof.
  intros Hs Hst; destruct s as [|c s]; [reflexivity|].
  destruct (exists_last (l := c :: s)) as (u & d & E); [discriminate|].
  rewrite E in *.
  assert (Hd : is_space d = false).
  { apply (strip_last_not_space (a ++ u ++ [d]) (a ++ u) d).
    rewrite Hst, <- app_assoc; reflexivity. }
  unfold all_space in Hs; rewrite forallb_app in Hs; simpl in Hs.
  rewrite Hd, andb_false_r in Hs; discriminate.
Qed.

Lemma tokens_valid (s : str) (ts : list str) :
  tokens s ts -> Forall (fun t => t <> [] /\ no_space t = true) ts.
Proof. induction 1; constructor; auto. Qed.

Lemma tokens_nil_all_space (s : str) : tokens s [] -> all_space s = true.
Proof. intros H; now inversion H. Qed.

(** A trimmed string with one token is that token. *)
Lemma one_token_stripped (s t : str) :
  tokens s [t] -> strip s = s -> s = t.
Proof.
  intros H Hst; inversion H as [|ws t' s' ts Hws Ht1 Ht2 Hs' Htl]; subst.
  apply tokens_nil_all_space in Htl.
  assert (ws = []) as ->.
  { destruct ws as [|c ws]; [reflexivity|].
    pose proof (strip_head_not_space _ c _ Hst) as Hc.
    unfold all_space in Hws; simpl in Hws; rewrite Hc in Hws; discriminate. }
  simpl in *.
  rewrite (all_space_end_stripped_nil t s' Htl Hst); apply app_nil_r.
Qed.

Lemma no_space_head (c : ascii) (t : str) :
  no_space (c :: t) = true -> is_space c = false.
Proof.
  unfold no_space; simpl; intros H; apply andb_true_iff in H as [H _].
  now apply negb_true_iff.
Qed.

Lemma join_tokens_last (ts : list str) (c : ascii) (t : str) :
  Forall (fun t => t <> [] /\ no_space t = true) ((c :: t) :: ts) ->
  exists u d, join " " ((c :: t) :: ts) = u ++ [d] /\ is_space d = false.
Proof.
  revert c t; induction ts as [|r ts IH]; intros c t Hv;
    apply Forall_cons_1 in Hv as [[_ Hns] Hv].
  - destruct (exists_last (l := c :: t)) as (u & d & Eu); [discriminate|].
    exists u, d; split; [exact Eu|].
    unfold no_space in Hns; rewrite Eu, forallb_app in Hns.
    apply andb_true_iff in Hns as [_ H]; simpl in H.
    rewrite andb_true_r in H; now apply negb_true_iff.
  - destruct r as [|x r]; [apply Forall_cons_1 in Hv as [[H _] _]; congruence|].
    destruct (IH x r Hv) as (u & d & Eu & Hd).
    exists ((c :: t) ++ " " ++ u), d; split; [|exact Hd].
    change (join " " ((c :: t) :: (x :: r) :: ts))
      with ((c :: t) ++ " " ++ join " " ((x :: r) :: ts)).
    rewrite Eu, <- !app_assoc; reflexivity.
Qed.

(** Tokens joined by single spaces make a trimmed string. *)
Lemma strip_join_tokens (ts : list str) :
  Forall (fun t => t <> [] /\ no_space t = true) ts ->
  strip (join " " ts) = join " " ts.
Proof.
  destruct ts as [|[|c t] ts]; [reflexivity| |]; intros Hv.
  - apply Forall_cons_1 in Hv as [[H _] _]; congruence.
  - destruct (join_tokens_last ts c t Hv) as (u & d & Eu & Hd).
    assert (Hhead : exists tl, join " " ((c :: t) :: ts) = c :: tl).
    { destruct ts; simpl; eauto. }
    destruct Hhead as (tl & Etl).
    unfold str in *; rewrite Etl; apply (strip_id c d u tl); auto.
    + apply Forall_cons_1 in Hv as [[_ Hns] _]; exact (no_space_head c t Hns).
    + now rewrite <- Etl.
Qed.

(** X10.  The full name is the trimmed input in every case; the first name holds
    no whitespace, and is empty only when the input is blank; the last name
    is trimmed. *)
Theorem parse_name_parts (name : str) :
  (parse_name name).2 = strip name /\
  no_space (parse_name name).1.1 = true /\
  ((parse_name name).1.1 = [] <-> strip name = []) /\
  strip (parse_name name).1.2 = (parse_name name).1.2.
Proof.
  pose proof (tokens_split (strip name)) as Ht.
  pose proof (tokens_valid _ _ Ht) as Hv.
  unfold parse_name.
  destruct (split (strip name)) as [|t [|t' rest]] eqn:E; simpl.
  - apply tokens_nil_all_space in Ht.
    rewrite (all_space_stripped_nil _ Ht (strip_idempotent name)).
    repeat split; reflexivity.
  - pose proof (one_token_stripped _ _ Ht (strip_idempotent name)) as Hs.
    apply Forall_cons_1 in Hv as [[Hne Hns] _].
    rewrite Hs; repeat split; auto; intros H; congruence.
  - apply Forall_cons_1 in Hv as [[Hne Hns] Hv].
    split; [reflexivity|]. split; [exact Hns|]. split.
    + split; [congruence|].
      intros Hs; rewrite Hs in E; discriminate E.
    + now apply (strip_join_tokens (t' :: rest)).
Qed.

Lemma tokens_join (ts : list str) :
  Forall (fun t => t <> [] /\ no_space t = true) ts ->
  tokens (join " " ts) ts.
Proof.
  induction ts as [|t ts IH]; intros Hv; [now apply tokens_none|].
  apply Forall_cons_1 in Hv as [[Hne Hns] Hv].
  destruct ts as [|t' ts].
  - rewrite <- (app_nil_r t) at 1.
    apply (tokens_run [] t [] []); auto; now apply tokens_none.
  - change (join " " (t :: t' :: ts)) with ([] ++ t ++ " " ++ join " " (t' :: ts)).
    apply tokens_run; auto.
    + right; now exists " "%char, (join " " (t' :: ts)).
    + apply tokens_space_cons; [reflexivity|auto].
Qed.

(** Parsing tokens joined by single spaces gives them back. *)
Lemma parse_name_join (ts : list str) :
  Forall (fun t => t <> [] /\ no_space t = true) ts ->
  parse_name (join " " ts) =
  match ts with
  | [] => ("", "", "")
  | [t] => (t, "", t)
  | t :: rest => (t, join " " rest, join " " ts)
  end.
Proof.
  intros Hv; unfold parse_name.
  rewrite (strip_join_tokens ts Hv), <- (tokens_unique _ _ (tokens_join ts Hv)).
  destruct ts as [|t [|t' rest]]; reflexivity.
Qed.

Lemma join_not_nil (t : str) (ts : list str) :
  t <> [] -> join " " (t :: ts) <> [].
Proof. destruct t, ts; simpl; congruence. Qed.

(** X11.  The split survives a second parsing: a name with a last name, written
    again as first name, space, last name, parses into the same first and
    last names; a name without last name parses again into itself. *)
Theorem parse_name_reparse (name first last full : str) :
  parse_name name = (first, last, full) ->
  (last = [] -> parse_name first = (first, "", first)) /\
  (last <> [] ->
   parse_name (first ++ " " ++ last) = (first, last, first ++ " " ++ last)).
Proof.
  pose proof (tokens_valid _ _ (tokens_split (strip name))) as Hv.
  unfold parse_name at 1.
  destruct (split (strip name)) as [|t [|t' rest]] eqn:E;
    intros H; injection H as <- <- <-.
  - split; [reflexivity|congruence].
  - split; [intros _|congruence].
    exact (parse_name_join [t] Hv).
  - pose proof Hv as Hv'.
    apply Forall_cons_1 in Hv' as [_ Hv'].
    apply Forall_cons_1 in Hv' as [[Hne _] _].
    split.
    + intros H; now apply join_not_nil in H.
    + intros _; exact (parse_name_join (t :: t' :: rest) Hv).
Qed.

Lemma parse_name_reparse_witness :
  parse_name "Jane Mary Doe" = ("Jane", "Mary Doe", "Jane Mary Doe").
Proof.
  exact (proj2 (parse_name_reparse "  Jane   Mary  Doe " "Jane" "Mary Doe"
                  "Jane   Mary  Doe" eq_refl) ltac:(discriminate)).
Defined.

End NameProps.

(** ** More on [validate_email] *)

Module EmailProps.
Import Py Re Convert2 Spec Notions PyFacts ValidatorProps.

(** No character an address may hold is whitespace. *)
Lemma email_char_not_space (c : ascii) :
  local_char c || domain_char c || one_of "@" c = true -> is_space c = false.
Proof.
  destruct c as [b0 b1 b2 b3 b4 b5 b6 b7].
  destruct b0, b1, b2, b3, b4, b5, b6, b7; vm_compute; congruence.
Qed.

Lemma letter_is_local (c : ascii) : is_letter c = true -> local_char c = true.
Proof. unfold local_char; now intros ->. Qed.

Lemma dot_is_local (c : ascii) : one_of "." c = true -> local_char c = true.
Proof.
  unfold one_of; intros H; apply bool_decide_eq_true, list_elem_of_singleton in H.
  now subst c.
Qed.

Lemma nl_is_space (c : ascii) : is_nl c = true -> is_space c = true.
Proof. unfold is_nl; intros H; apply bool_decide_eq_true in H; now subst c. Qed.

Lemma email_pattern_no_space (e : str) : email_pattern e -> no_space e = true.
Proof.
  intros (l & d & t & -> & _ & Hl & _ & Hd & _ & Ht).
  assert (H : forallb (fun c => local_char c || domain_char c || one_of "@" c)
                (l ++ "@" ++ d ++ "." ++ t) = true).
  { rewrite !forallb_app; simpl.
    rewrite (forallb_weaken local_char _ l), (forallb_weaken domain_char _ d),
      (forallb_weaken is_letter _ t); auto.
    - intros c Hc; now rewrite (letter_is_local c Hc).
    - intros c Hc; rewrite Hc; now rewrite orb_true_r.
    - intros c Hc; now rewrite Hc. }
  unfold no_space; revert H; apply forallb_weaken.
  intros c Hc; now rewrite (email_char_not_space c Hc).
Qed.

(** X12.  An address [validate_email] returns is the trimmed input, has the shape
    of the pattern, holds no whitespace - hence no line break - and is
    returned as it is when validated again. *)
Theorem validate_email_accepted (raw e : str) (w : world) :
  fst (validate_email (Some raw) w) = Ok (Some e) ->
  e = strip raw /\
  email_pattern e /\
  no_space e = true /\
  single_line e = true /\
  validate_email (Some e) w = (Ok (Some e), w).
Proof.
  destruct raw as [|x v]; [discriminate|].
  pose proof (EmailAddress.fullmatch_email_strip (x :: v)) as Hm.
  unfold validate_email at 1.
  destruct (fullmatch email_regex (strip (x :: v))) eqn:Hf; [|discriminate].
  simpl; intros E; injection E as <-.
  pose proof (proj1 Hm eq_refl) as Hp.
  pose proof (email_pattern_no_space _ Hp) as Hns.
  split; [reflexivity|]. split; [exact Hp|]. split; [exact Hns|]. split.
  - unfold single_line; revert Hns; apply forallb_weaken.
    intros c Hc; destruct (is_nl c) eqn:Hn; [|reflexivity].
    apply nl_is_space in Hn; rewrite Hn in Hc; discriminate.
  - destruct (strip (x :: v)) as [|y s] eqn:Es.
    + now apply email_pattern_not_nil in Hp.
    + assert (Hst : strip (y :: s) = y :: s)
        by (rewrite <- Es; apply strip_idempotent).
      unfold validate_email; rewrite Hst, Hf; reflexivity.
Qed.

Lemma validate_email_accepted_witness :
  validate_email (Some "jane.doe@example.org") initial_world
  = (Ok (Some "jane.doe@example.org"), initial_world).
Proof.
  exact (proj2 (proj2 (proj2 (proj2
           (validate_email_accepted "  jane.doe@example.org" "jane.doe@example.org"
              initial_world eq_refl))))).
Defined.

End EmailProps.

(** ** More on the batch reader and the orchestrator *)

Module BatchProps.
Import Py Convert2 Spec Notions PyFacts Validator BatchReader Orchestrator.
Local Open Scope py_scope.

(** [read_contacts], case by case. *)
Lemma read_contacts_eval (L : libs) (self : converter) (csv_file : str) (w : world) :
  read_contacts L self csv_file w =
  match fs w !! csv_file with
  | None =>
      let e := FileNotFoundError
                 ("[Errno 2] No such file or directory: '" ++ csv_file ++ "'") in
      (Raise e, add_events w [Logged ERROR (MsgErrorReading e)])
  | Some content =>
      let reader := csv_DictReader L content in
      let w1 := validated_each self (rows reader)
                  (add_events w [Logged INFO (MsgHeaders (fieldnames reader))]) in
      match failure reader with
      | Some e => (Raise e, add_events w1 [Logged ERROR (MsgErrorReading e)])
      | None =>
          let valid := accepted self (rows reader) in
          let invalid := rejected_from self 2 (rows reader) in
          (Ok (valid, invalid),
           add_events
             (add_events w1 [Printed (MsgSummary (length valid) (length invalid))])
             [Logged INFO (MsgSummary (length valid) (length invalid))])
      end
  end.
Proof.
  cbv [read_contacts try_except bind open_read get_fs ret emit raise].
  destruct (fs w !! csv_file) as [content|]; [|reflexivity].
  rewrite read_rows_spec.
  destruct (failure (csv_DictReader L content)); reflexivity.
Qed.



Lemma rejected_from_lower (self : converter) (rs : list row) (n : nat) :
  Forall (fun j => n <= row_number j) (rejected_from self n rs).
Proof.
  revert n; induction rs as [|r rs IH]; intros n; cbn [rejected_from];
    [constructor|].
  assert (H : Forall (fun j => n <= row_number j) (rejected_from self (S n) rs)).
  { eapply Forall_impl; [apply IH|]; simpl; intros; lia. }
  destruct (verdict self r); [exact H|constructor; [simpl; lia|exact H]].
Qed.

Lemma rejected_from_sorted (self : converter) (rs : list row) (n : nat) :
  StronglySorted lt (map row_number (rejected_from self n rs)).
Proof.
  revert n; induction rs as [|r rs IH]; intros n; cbn [rejected_from];
    [constructor|].
  destruct (verdict self r); [apply IH|].
  cbn [map row_number]; constructor; [apply IH|].
  apply Forall_map.
  eapply Forall_impl; [apply (rejected_from_lower self rs (S n))|].
  simpl; intros; lia.
Qed.

(** X14.  The two lists of a batch account for every row: their lengths add up to
    the number of rows; the rejected entries come with strictly increasing
    row numbers, and each holds the row that stands at its number, the
    header being line 1. *)
Theorem read_contacts_numbering (L : libs) (self : converter) (csv_file content : str)
    (w w' : world) (valid : list Contact) (invalid : list rejected) :
  fs w !! csv_file = Some content ->
  read_contacts L self csv_file w = (Ok (valid, invalid), w') ->
  length valid + length invalid = length (rows (csv_DictReader L content)) /\
  StronglySorted lt (map row_number invalid) /\
  Forall (fun j => 2 <= row_number j /\
                   rows (csv_DictReader L content) !! (row_number j - 2)
                   = Some (data j))
         invalid.
Proof.
  intros Hfile; rewrite read_contacts_eval, Hfile; cbv zeta.
  destruct (failure (csv_DictReader L content)); [discriminate|].
  intros E; injection E as <- <- _.
  split; [apply partition_length|]. split; [apply rejected_from_sorted|].
  apply Forall_forall; intros j Hj.
  apply list_elem_of_In, rejected_from_numbered in Hj as (i & Hi & Hn & _).
  rewrite Hn; split; [lia|].
  now replace (2 + i - 2) with i by lia.
Qed.

Lemma read_contacts_numbering_witness :
  StronglySorted lt [3] /\
  Forall (fun j => 2 <= row_number j /\
                   Samples.two_rows !! (row_number j - 2) = Some (data j))
         [{| row_number := 3; data := Samples.nameless_row |}].
Proof.
  exact (proj2 (read_contacts_numbering Samples.sample_libs default_converter
                  "/data/contacts.csv" Samples.two_rows_text Samples.world_two_rows
                  _ [Samples.john]
                  [{| row_number := 3; data := Samples.nameless_row |}]
                  eq_refl eq_refl)).
Defined.

End BatchProps.

(** ** What gets written *)

Module OutputProps.
Import Py Convert2 Spec Notions PyFacts Validator BatchReader Renderer Orchestrator.
Local Open Scope py_scope.





(** *** The lines of the output *)

Lemma lines_of_join (cards : list str) :
  cards <> [] -> lines_of (join nl cards) = concat (map lines_of cards).
Proof.
  induction cards as [|card cards IH]; [congruence|intros _].
  destruct cards as [|card' cards].
  - simpl; now rewrite app_nil_r.
  - change (join nl (card :: card' :: cards))
      with (card ++ nl ++ join nl (card' :: cards)).
    rewrite lines_of_app_nl, IH by discriminate; reflexivity.
Qed.

Lemma unlines_ends (ls : list str) (a : str) :
  exists y, a ++ nl ++ unlines ls = y ++ nl.
Proof.
  revert a; induction ls as [|l ls IH]; intros a.
  - exists a; unfold unlines; simpl; reflexivity.
  - destruct (IH (a ++ nl ++ l)) as (y & Hy).
    exists y; rewrite <- Hy; unfold unlines; simpl.
    now rewrite <- !app_assoc.
Qed.

(** The first and the last line of a card. *)
Lemma card_ends (self : converter) (c : Contact) :
  exists body, lines_of (create_vcard_entry self c)
               = ["BEGIN:VCARD"] ++ body ++ ["END:VCARD"].
Proof.
  rewrite create_vcard_entry_text.
  destruct (unlines_ends (optional_lines self c) (phone_line self c)) as (y & Hy).
  assert (E : card_head self c ++ nl ++ phone_line self c ++ nl
              ++ unlines (optional_lines self c) ++ "END:VCARD"
              = (card_head self c ++ nl ++ y) ++ nl ++ "END:VCARD").
  { rewrite <- !app_assoc; do 2 f_equal.
    rewrite !app_assoc, <- (app_assoc (phone_line self c)), Hy.
    now rewrite <- !app_assoc. }
  rewrite E, lines_of_app_nl.
  assert (Hh : exists rest, card_head self c = "BEGIN:VCARD" ++ nl ++ rest).
  { unfold card_head.
    destruct (v3 self), (parse_name (name c)) as [[f l] n]; eauto. }
  destruct Hh as (rest & ->).
  rewrite <- !app_assoc, lines_of_app_nl.
  exists (lines_of (rest ++ nl ++ y)); now rewrite <- app_assoc.
Qed.

(** X17.  The output text is made of the cards and nothing else: its lines are
    the lines of the cards, one card after the other, with no blank line
    between two cards; it starts with [BEGIN:VCARD] and ends with
    [END:VCARD], without a final line break. *)
Theorem payload_lines (self : converter) (contacts : list Contact) :
  contacts <> [] ->
  lines_of (payload self contacts)
    = concat (map (fun c => lines_of (create_vcard_entry self c)) contacts) /\
  head (lines_of (payload self contacts)) = Some "BEGIN:VCARD" /\
  last (lines_of (payload self contacts)) = Some "END:VCARD".
Proof.
  intros Hne; unfold payload.
  assert (E : lines_of (join nl (map (create_vcard_entry self) contacts))
              = concat (map (fun c => lines_of (create_vcard_entry self c))
                          contacts)).
  { rewrite lines_of_join, map_map; [reflexivity|].
    destruct contacts; [congruence|discriminate]. }
  rewrite E; split; [reflexivity|]; clear E.
  induction contacts as [|c cs IH]; [congruence|].
  cbn [map concat]; destruct (card_ends self c) as (body & ->).
  split; [reflexivity|].
  destruct cs as [|c' cs].
  - cbn [map concat]; rewrite app_nil_r, !app_assoc; apply last_snoc.
  - destruct (IH ltac:(discriminate)) as [_ Hl].
    apply last_Some in Hl as (l' & ->).
    rewrite !app_assoc; apply last_snoc.
Qed.

Lemma payload_lines_witness :
  last (lines_of (payload default_converter [Samples.john; Samples.noted_contact]))
  = Some "END:VCARD".
Proof.
  exact (proj2 (proj2 (payload_lines default_converter
                         [Samples.john; Samples.noted_contact]
                         ltac:(discriminate)))).
Defined.

End OutputProps.

(** ** The first converter: [convert.py] *)

Module ConvertProps.
Import Py Convert.
Local Open Scope conv_scope.

(** *** [clean_phone_number] *)

Lemma clean_phone_number_parts (phone : str) :
  clean_phone_number phone = spaced (prefixed (Spec.digits phone)).
Proof. reflexivity. Qed.

Lemma digits_spaced (c : str) : Spec.digits (spaced c) = Spec.digits c.
Proof.
  unfold spaced; destruct (startswith "+91" c); [|reflexivity].
  unfold slice; cbn [Nat.sub drop].
  rewrite !PhoneDigits.digits_app.
  change (Spec.digits " ") with (@nil ascii); cbn [app].
  rewrite <- !PhoneDigits.digits_app.
  replace (drop 8 c) with (drop 5 (drop 3 c)) by now rewrite drop_drop.
  now rewrite take_drop, take_drop.
Qed.

Lemma digits_prefixed (ds : str) :
  Spec.all_digits ds = true ->
  Spec.digits (prefixed ds) = (if length ds =? 10 then "91" else "") ++ ds.
Proof.
  intros H; unfold prefixed.
  destruct (length ds =? 10).
  - change (Spec.digits ("+91" ++ ds)) with ("91" ++ Spec.digits ds).
    now rewrite (PyFacts.filter_all_digits ds H).
  - destruct ((10 <? length ds) && negb (startswith "+" ds));
      [change (Spec.digits ("+" ++ ds)) with (Spec.digits ds)|];
      now rewrite (PyFacts.filter_all_digits ds H).
Qed.

Lemma prefixed_again (ds : str) :
  Spec.all_digits ds = true -> prefixed (Spec.digits (prefixed ds)) = prefixed ds.
Proof.
  intros H; rewrite (digits_prefixed ds H).
  destruct (length ds =? 10) eqn:E10.
  - apply Nat.eqb_eq in E10.
    unfold prefixed; cbn [app length]; rewrite E10; reflexivity.
  - reflexivity.
Qed.

(** X18.  Cleaning a number twice is cleaning it once, and cleaning keeps
    the digit characters of the input, in order, with [91] before them
    when they are ten. *)
Theorem clean_phone_number_idempotent (phone : str) :
  clean_phone_number (clean_phone_number phone) = clean_phone_number phone /\
  Spec.digits (clean_phone_number phone)
  = (if length (Spec.digits phone) =? 10 then "91" else "") ++ Spec.digits phone.
Proof.
  rewrite !clean_phone_number_parts, digits_spaced.
  rewrite (prefixed_again _ (PyFacts.digits_all_digits phone)).
  split; [reflexivity|].
  apply digits_prefixed, PyFacts.digits_all_digits.
Qed.

Lemma startswith_digits (p ds : str) (c : ascii) :
  is_digit c = false -> Spec.all_digits ds = true -> startswith (c :: p) ds = false.
Proof.
  intros Hc; destruct ds as [|d ds]; [reflexivity|].
  unfold Spec.all_digits; cbn [forallb startswith]; intros H.
  apply andb_true_iff in H as [Hd _].
  destruct (Ascii.eqb_spec c d) as [->|]; [congruence|reflexivity].
Qed.

(** X19.  What [clean_phone_number] returns, by the digit characters of its
    input: fewer
    than ten are returned bare, without country code and without an error;
    ten get [+91] and are spaced as [+91 ddddd ddddd]; more than ten get
    [+], and are spaced in the same way when they start with [91]. *)
Theorem clean_phone_number_shapes (phone : str) :
  (length (Spec.digits phone) < 10 -> clean_phone_number phone = Spec.digits phone) /\
  (length (Spec.digits phone) = 10 ->
   clean_phone_number phone
   = "+91 " ++ take 5 (Spec.digits phone) ++ " " ++ drop 5 (Spec.digits phone)) /\
  (10 < length (Spec.digits phone) ->
   clean_phone_number phone =
   if startswith "91" (Spec.digits phone)
   then "+91 " ++ slice (Spec.digits phone) 2 7 ++ " " ++ drop 7 (Spec.digits phone)
   else "+" ++ Spec.digits phone).
Proof.
  rewrite clean_phone_number_parts.
  pose proof (PyFacts.digits_all_digits phone) as Hd.
  pose proof (startswith_digits "" _ "+" eq_refl Hd) as Hplus.
  pose proof (startswith_digits "91" _ "+" eq_refl Hd) as Hplus91.
  set (ds := Spec.digits phone) in *; clearbody ds.
  unfold prefixed, spaced; rewrite Hplus; split; [|split]; intros Hlen.
  - destruct (length ds =? 10) eqn:E; [apply Nat.eqb_eq in E; lia|].
    destruct (10 <? length ds) eqn:E'; [apply Nat.ltb_lt in E'; lia|].
    cbn [andb]; now rewrite Hplus91.
  - rewrite Hlen; reflexivity.
  - destruct (length ds =? 10) eqn:E; [apply Nat.eqb_eq in E; lia|].
    apply Nat.ltb_lt in Hlen as ->; cbn [andb negb].
    destruct ds as [|a [|b ds]]; cbn [startswith app].
    + reflexivity.
    + destruct (Ascii.eqb_spec "9" a) as [<-|]; reflexivity.
    + destruct (Ascii.eqb_spec "9" a) as [<-|], (Ascii.eqb_spec "1" b) as [<-|];
        reflexivity.
Qed.

Lemma clean_phone_number_shapes_witness :
  clean_phone_number "12-34" = "1234" /\
  clean_phone_number "(987) 654-3210" = "+91 98765 43210" /\
  clean_phone_number "0091 98765 43210" = "+00919876543210".
Proof.
  split; [|split].
  - apply (proj1 (clean_phone_number_shapes "12-34")); vm_compute; lia.
  - exact (proj1 (proj2 (clean_phone_number_shapes "(987) 654-3210")) eq_refl).
  - apply (proj2 (proj2 (clean_phone_number_shapes "0091 98765 43210")));
      vm_compute; lia.
Defined.

(** *** [validate_contact] *)

Lemma find_column_well_typed (header : str) (r : Convert2.row) :
  Spec.well_typed r = true -> find_column header r = Ok (column header r).
Proof.
  unfold column; induction r as [|[[k|] x] r IH]; simpl; try discriminate;
    [reflexivity|].
  destruct x; try discriminate; intros H.
  destruct (bool_decide (lower (strip k) = header)); [reflexivity|auto].
Qed.

Lemma find_column_raises (header : str) (r : Convert2.row) (e : exn) :
  find_column header r = Raise e -> exists msg, e = AttributeError msg.
Proof.
  induction r as [|[[k|] x] r IH]; simpl; try discriminate.
  - destruct (bool_decide (lower (strip k) = header)); [|exact IH].
    destruct x; try discriminate; intros E; injection E as <-; eauto.
  - intros E; injection E as <-; eauto.
Qed.

Lemma has_digit_digits (s : str) :
  has_digit s = match Spec.digits s with [] => false | _ => true end.
Proof.
  unfold has_digit, Spec.digits; induction s as [|c s IH]; [reflexivity|].
  simpl; destruct (is_digit c); [reflexivity|exact IH].
Qed.

Lemma has_digit_cleaned (p : str) : has_digit (clean_phone_number p) = has_digit p.
Proof.
  rewrite !has_digit_digits, clean_phone_number_parts, digits_spaced,
    (digits_prefixed _ (PyFacts.digits_all_digits p)).
  destruct (Spec.digits p) as [|d ds]; [reflexivity|].
  destruct (length (d :: ds) =? 10); reflexivity.
Qed.

(** X20.  What [validate_contact] decides for a row of strings: the row becomes a
    contact exactly when its name has two characters or more and its phone
    holds at least one digit - a phone of fewer than ten digits passes; the
    contact has the trimmed name and the cleaned phone.  No file changes. *)
Theorem validate_contact_accepts (r : Convert2.row) (w : world) :
  Spec.well_typed r = true ->
  fst (validate_contact r w) =
  Ok (match column "name" r, column "phone" r with
      | Some n, Some p =>
          if (2 <=? length n) && has_digit p
          then Some {| name := n; phone := clean_phone_number p |}
          else None
      | _, _ => None
      end) /\
  fs (snd (validate_contact r w)) = fs w.
Proof.
  intros Hwt; unfold validate_contact, bind, lift.
  rewrite !(find_column_well_typed _ r Hwt).
  destruct (column "name" r) as [[|a n]|], (column "phone" r) as [[|b p]|];
    try (split; reflexivity).
  - split; [|reflexivity].
    cbn [length]; destruct n; reflexivity.
  - rewrite <- (has_digit_cleaned (b :: p)).
    destruct n as [|a' n]; [split; reflexivity|].
    change (length (a :: a' :: n) <? 2) with false.
    change (2 <=? length (a :: a' :: n)) with true; cbn [andb].
    destruct (has_digit (clean_phone_number (b :: p))); split; reflexivity.
Qed.

Lemma validate_contact_accepts_witness :
  fst (validate_contact [(Some "Name", Convert2.CStr " Jo ");
                         (Some "phone", Convert2.CStr "12-34")] initial_world)
  = Ok (Some {| name := "Jo"; phone := "1234" |}).
Proof.
  exact (proj1 (validate_contact_accepts
                  [(Some "Name", Convert2.CStr " Jo ");
                   (Some "phone", Convert2.CStr "12-34")] initial_world eq_refl)).
Defined.

(** *** [read_contacts] and [convert_to_vcard] *)

Lemma validate_contact_keeps_files (r : Convert2.row) (w : world) :
  fs (snd (validate_contact r w)) = fs w.
Proof.
  unfold validate_contact, bind, lift.
  destruct (find_column "name" r) as [n|e]; [|reflexivity].
  destruct (find_column "phone" r) as [p|e]; [|reflexivity].
  destruct n as [[|a n]|], p as [[|b p]|]; try reflexivity.
  destruct (length (a :: n) <? 2); [reflexivity|].
  destruct (negb (has_digit (clean_phone_number (b :: p)))); reflexivity.
Qed.

Lemma read_rows_keeps_files (rs : list Convert2.row) :
  forall vs js w, fs (snd (read_rows rs vs js w)) = fs w.
Proof.
  induction rs as [|r rs IH]; intros vs js w; [reflexivity|].
  cbn [read_rows]; unfold bind.
  pose proof (validate_contact_keeps_files r w) as H.
  destruct (validate_contact r w) as [[[c|]|e] w1]; cbn [snd] in *;
    rewrite ?IH; exact H.
Qed.

(** [read_contacts] writes no file, whatever its outcome. *)
Lemma read_contacts_keeps_files (reader : str -> csv_stream) (csv_file : str) (w : world) :
  fs (snd (read_contacts reader csv_file w)) = fs w.
Proof.
  unfold read_contacts, try_except, bind at 1.
  destruct (fs w !! csv_file) as [content|]; [|reflexivity].
  unfold bind at 1, print at 1; unfold bind at 1.
  match goal with |- context [read_rows ?rs ?a ?b ?w0] =>
    pose proof (read_rows_keeps_files rs a b w0) as H;
    destruct (read_rows rs a b w0) as [[[vs js]|e] w1] end; cbn [snd fs] in H.
  - destruct (failure (reader content)) as [e|].
    + unfold raise; destruct e; exact H.
    + destruct js; cbv [bind print ret]; exact H.
  - destruct e; exact H.
Qed.

(** A conversion that raises leaves every file as it was. *)
Lemma convert_to_vcard_keeps_files (reader : str -> csv_stream)
    (csv_file output_file : str) (w : world) :
  match convert_to_vcard reader csv_file output_file w with
  | (Raise e, w') => fs w' = fs w
  | (Ok _, w') => True
  end.
Proof.
  unfold convert_to_vcard, try_except, bind at 1.
  destruct (fs w !! csv_file) as [content|]; [|reflexivity].
  unfold bind at 1.
  pose proof (read_contacts_keeps_files reader csv_file w) as H.
  destruct (read_contacts reader csv_file w) as [[[|c cs]|e] w1]; cbn [snd] in H;
    [exact H|exact I|exact H].
Qed.

Lemma validate_contact_row_returns (r : Convert2.row) (w : world) :
  Spec.well_typed r = true -> exists o w', validate_contact r w = (Ok o, w').
Proof.
  intros Hwt; unfold validate_contact, bind, lift.
  rewrite !(find_column_well_typed _ r Hwt).
  destruct (column "name" r) as [[|a n]|], (column "phone" r) as [[|b p]|];
    cbv [print ret]; eauto.
  destruct (length (a :: n) <? 2); [eauto|].
  destruct (negb (has_digit (clean_phone_number (b :: p)))); eauto.
Qed.

Lemma read_rows_prefix (pre rest : list Convert2.row) :
  forallb Spec.well_typed pre = true ->
  forall vs js w, exists vs' js' w',
    read_rows (pre ++ rest) vs js w = read_rows rest vs' js' w'.
Proof.
  induction pre as [|r pre IH]; intros Hwt vs js w; [simpl; eauto|].
  simpl in Hwt; apply andb_true_iff in Hwt as [Hr Hpre].
  cbn [app read_rows]; unfold bind.
  destruct (validate_contact_row_returns r w Hr) as ([c|] & w1 & ->); apply IH;
    exact Hpre.
Qed.

(** X21.  There is no isolation of rows in this version: a row in which the
    name or the phone cannot be looked up - a line that stops before its
    phone cell, say - makes [validate_contact] raise, and the exception
    leaves [read_contacts] and [convert_to_vcard] as it is: the rows after
    it are not read, no contact is returned and no file is written. *)
Theorem malformed_row_aborts (reader : str -> csv_stream)
    (csv_file output_file content : str) (pre post : list Convert2.row)
    (r : Convert2.row) (e : exn) (w : world) :
  fs w !! csv_file = Some content ->
  rows (reader content) = pre ++ r :: post ->
  forallb Spec.well_typed pre = true ->
  (find_column "name" r = Raise e \/
   (exists n, find_column "name" r = Ok n /\ find_column "phone" r = Raise e)) ->
  validate_contact r w = (Raise e, w) /\
  fst (read_contacts reader csv_file w) = Raise e /\
  fst (convert_to_vcard reader csv_file output_file w) = Raise e /\
  fs (snd (convert_to_vcard reader csv_file output_file w)) = fs w.
Proof.
  intros Hfile Hrows Hpre Hr.
  assert (Hv : forall w0, validate_contact r w0 = (Raise e, w0)).
  { intros w0; unfold validate_contact, bind, lift.
    destruct Hr as [->|(n & -> & ->)]; reflexivity. }
  assert (He : exists msg, e = AttributeError msg).
  { destruct Hr as [H|(n & _ & H)]; exact (find_column_raises _ _ _ H). }
  destruct He as (msg & ->).
  assert (Hread : fst (read_contacts reader csv_file w) = Raise (AttributeError msg)).
  { unfold read_contacts, try_except, bind at 1; rewrite Hfile.
    unfold bind at 1, print at 1; unfold bind at 1; rewrite Hrows.
    match goal with |- context [read_rows _ ?a ?b ?w0] =>
      destruct (read_rows_prefix pre (r :: post) Hpre a b w0)
        as (vs' & js' & w1 & ->) end.
    cbn [read_rows]; unfold bind at 1; rewrite Hv; reflexivity. }
  split; [apply Hv|]. split; [exact Hread|].
  assert (Hconv : fst (convert_to_vcard reader csv_file output_file w)
                  = Raise (AttributeError msg)).
  { unfold convert_to_vcard, try_except, bind at 1; rewrite Hfile.
    unfold bind at 1.
    destruct (read_contacts reader csv_file w) as [[cs|e'] w1];
      simpl in Hread; [discriminate|].
    injection Hread as ->; reflexivity. }
  split; [exact Hconv|].
  pose proof (convert_to_vcard_keeps_files reader csv_file output_file w) as Hfs.
  destruct (convert_to_vcard reader csv_file output_file w) as [[u|e'] w'];
    simpl in Hconv; [discriminate|exact Hfs].
Qed.

Lemma malformed_row_aborts_witness :
  fst (convert_to_vcard sample_reader "contacts.csv" "contacts.vcf"
         world_short_line)
  = Raise (AttributeError "'NoneType' object has no attribute 'strip'").
Proof.
  exact (proj1 (proj2 (proj2
           (malformed_row_aborts sample_reader "contacts.csv" "contacts.vcf"
              "name,phone" [Samples.john_row] [Samples.john_row] phoneless_row
              (AttributeError "'NoneType' object has no attribute 'strip'")
              world_short_line eq_refl eq_refl eq_refl
              (or_intror (ex_intro _ (Some "Ann Lee") (conj eq_refl eq_refl))))))).
Defined.

(** X22.  The conversion either raises, and then every file is as it was, or
    returns, and then it read at least one contact and the only change is
    the output file, which holds the cards of the contacts read. *)
Theorem convert_to_vcard_outcome (reader : str -> csv_stream)
    (csv_file output_file : str) (w : world) :
  match convert_to_vcard reader csv_file output_file w with
  | (Raise e, w') => fs w' = fs w
  | (Ok _, w') =>
      exists c cs,
        fst (read_contacts reader csv_file w) = Ok (c :: cs) /\
        fs w' = <[output_file := create_vcards (c :: cs)]> (fs w)
  end.
Proof.
  unfold convert_to_vcard, try_except, bind at 1.
  destruct (fs w !! csv_file) as [content|]; [|reflexivity].
  unfold bind at 1.
  pose proof (read_contacts_keeps_files reader csv_file w) as H.
  destruct (read_contacts reader csv_file w) as [[[|c cs]|e] w1]; cbn [snd] in H.
  - exact H.
  - cbv [bind write_file print]; cbn [fs]; rewrite H; eauto.
  - exact H.
Qed.

Example convert_to_vcard_outcome_sample :
  fs (snd (convert_to_vcard sample_reader "contacts.csv" "contacts.vcf"
             world_two_rows)) !! "contacts.vcf"
  = Some (vcard {| name := "John Smith"; phone := "+91 98765 43210" |}).
Proof. reflexivity. Qed.

End ConvertProps.
